(** * Scenic-Rider: the scorer of [calculate_score.py]

    A shallow embedding of [get_id_by_name] and [calculate_score], and the
    properties the specification states about them; then the two functions
    of [request.py], which look up a street photo and run the scorer on it.

    Numbers.  The program computes on Python [int]s, [numpy.int64] scalars
    and IEEE binary64 floats ([float], [numpy.float64]).  The embedding is
    written once, over an interface [FloatOps] of the float operations the
    program uses, and is run on two instances:

    - [exact_ops]: a finite float is a rational in lowest terms and every
      operation is exact; NaN and the infinities are kept, because numpy's
      division by zero produces them.  Theorems about this instance describe
      the program up to binary64 rounding.
    - [binary64_ops]: Rocq's primitive binary64 floats, which round as
      CPython and numpy do.  It evaluates the program on concrete inputs, and
      the properties that do not depend on rounding are proved for it too.

    Signed zeros are not distinguished in [exact_ops]; [numpy.int64]
    arithmetic wraps around at 64 bits; integers converted to binary64 are
    below 2^63 in absolute value.

    Objects.  Whether a number is a built-in or a numpy scalar decides what
    a division by zero does, so objects carry that ([pyobj]): [np.sum] yields
    a [numpy.int64], the built-in [sum] starts from the [int] 0, and an
    operation with a numpy operand yields a numpy scalar.

    Effects.  An exception is a [Raise] in the [result] monad.  What the
    program prints is returned, as a list of [line]s, next to its result; a
    breakdown line is kept as its label and ratio, not as formatted text.
    Opening the image and running the segmentation model are parameters of
    [calculate_score].  The vocabulary [model.config.id2label] is a finite
    map; the list made from a [set] is the [elements] of a finite set, in
    the order of that function.  In [request.py] the answer of the photo
    service is a parsed JSON document ([json]), the exceptions caught by
    [get_image_at_coordinate] are a [Failed] in the [tried] monad, and the
    files on disk are a finite map from paths. *)

From Stdlib Require Import ZArith QArith Qreduction Lqa Lia Bool List.
From Stdlib Require Import Ascii String.
From Stdlib Require Import Floats Numbers.Cyclic.Int63.Uint63.
From stdpp Require Import base option list gmap strings pretty sorting.

Open Scope Z_scope.

(** * The program *)

(** ** Float arithmetic *)

Class FloatOps (F : Type) := {
  fadd : F -> F -> F;
  fsub : F -> F -> F;
  fmul : F -> F -> F;
  fdiv : F -> F -> F;
  fltb : F -> F -> bool;
  (** conversion of an integer, and of a decimal literal given as a fraction *)
  of_Z : Z -> F;
  of_Q : Q -> F
}.

(** *** Exact arithmetic with NaN and infinities *)

Inductive xfloat : Type :=
  | Fin (q : Q)
  | PInf
  | NInf
  | NaN.

Definition Qltb (a b : Q) : bool :=
  match (a ?= b)%Q with Lt => true | _ => false end.

Definition Qzerob (a : Q) : bool :=
  match (a ?= 0)%Q with Eq => true | _ => false end.

Definition x_opp (x : xfloat) : xfloat :=
  match x with
  | Fin a => Fin (Qred (- a))
  | PInf => NInf
  | NInf => PInf
  | NaN => NaN
  end.

Definition x_add (x y : xfloat) : xfloat :=
  match x, y with
  | NaN, _ | _, NaN => NaN
  | Fin a, Fin b => Fin (Qred (a + b))
  | PInf, NInf | NInf, PInf => NaN
  | PInf, _ | _, PInf => PInf
  | NInf, _ | _, NInf => NInf
  end.

Definition x_sub (x y : xfloat) : xfloat := x_add x (x_opp y).

(** the infinity [i] scaled by the sign of the finite [a] *)
Definition x_scale_inf (i : xfloat) (a : Q) : xfloat :=
  match (a ?= 0)%Q with
  | Gt => i
  | Lt => x_opp i
  | Eq => NaN
  end.

Definition x_mul (x y : xfloat) : xfloat :=
  match x, y with
  | NaN, _ | _, NaN => NaN
  | Fin a, Fin b => Fin (Qred (a * b))
  | Fin a, i => x_scale_inf i a
  | i, Fin b => x_scale_inf i b
  | PInf, PInf | NInf, NInf => PInf
  | PInf, NInf | NInf, PInf => NInf
  end.

Definition x_div (x y : xfloat) : xfloat :=
  match x, y with
  | NaN, _ | _, NaN => NaN
  | Fin a, Fin b =>
      if Qzerob b then x_scale_inf PInf a else Fin (Qred (a / b))
  | Fin _, _ => Fin 0
  | i, Fin b => if Qltb b 0 then x_opp i else i
  | _, _ => NaN
  end.

Definition x_ltb (x y : xfloat) : bool :=
  match x, y with
  | NaN, _ | _, NaN => false
  | Fin a, Fin b => Qltb a b
  | NInf, NInf | PInf, _ => false
  | NInf, _ | _, PInf => true
  | Fin _, NInf => false
  end.

#[export] Instance exact_ops : FloatOps xfloat := {|
  fadd := x_add;
  fsub := x_sub;
  fmul := x_mul;
  fdiv := x_div;
  fltb := x_ltb;
  of_Z := fun z => Fin (inject_Z z);
  of_Q := fun q => Fin (Qred q)
|}.

(** *** IEEE binary64 *)

Definition b64_of_Z (z : Z) : float :=
  match z with
  | Zneg p => PrimFloat.opp (PrimFloat.of_uint63 (Uint63.of_Z (Zpos p)))
  | _ => PrimFloat.of_uint63 (Uint63.of_Z z)
  end.

#[export] Instance binary64_ops : FloatOps float := {|
  fadd := PrimFloat.add;
  fsub := PrimFloat.sub;
  fmul := PrimFloat.mul;
  fdiv := PrimFloat.div;
  fltb := PrimFloat.ltb;
  of_Z := b64_of_Z;
  of_Q := fun q => PrimFloat.div (b64_of_Z (Qnum q)) (b64_of_Z (Zpos (Qden q)))
|}.

(** ** Python values and exceptions *)

Inductive exn : Type := ZeroDivisionError.

Inductive result (A : Type) : Type :=
  | Return (a : A)
  | Raise (e : exn).
Arguments Return {A} a.
Arguments Raise {A} e.

#[export] Instance result_ret : MRet result := fun A a => Return a.

#[export] Instance result_bind : MBind result := fun A B k m =>
  match m with
  | Return a => k a
  | Raise e => Raise e
  end.

(** [numpy.int64] arithmetic is two's complement on 64 bits. *)
Definition wrap64 (z : Z) : Z := (z + 2 ^ 63) mod 2 ^ 64 - 2 ^ 63.

(** The status strings of [calculate_score] ("Neutral" is the initial value,
    "Error" the one of the failure path). *)
Inductive status : Type :=
  | Neutral
  | Waterfront
  | DedicatedBikeLane
  | GreenTunnel
  | CityStreetNoBikeLane
  | MixedUrban
  | Error.

Definition status_text (s : status) : string :=
  match s with
  | Neutral => "Neutral"
  | Waterfront => "Waterfront ðŸŒŠ"
  | DedicatedBikeLane => "Dedicated Bike Lane ðŸš²"
  | GreenTunnel => "Green Tunnel ðŸŒ³"
  | CityStreetNoBikeLane => "City St (No Bike Lane) ðŸš—"
  | MixedUrban => "Mixed / Urban"
  | Error => "Error"
  end.

Section Values.
Context {F : Type} {ops : FloatOps F}.

(** The numeric objects the program handles.  The distinction between the
    built-in and the numpy scalars matters for division by zero. *)
Inductive pyobj : Type :=
  | PyInt (z : Z)
  | NpInt64 (z : Z)
  | PyFloat (x : F)
  | NpFloat64 (x : F).

Definition is_numpy (o : pyobj) : bool :=
  match o with
  | NpInt64 _ | NpFloat64 _ => true
  | PyInt _ | PyFloat _ => false
  end.

Definition as_float (o : pyobj) : F :=
  match o with
  | PyInt z | NpInt64 z => of_Z z
  | PyFloat x | NpFloat64 x => x
  end.

Definition mk_float (np : bool) (x : F) : pyobj :=
  if np then NpFloat64 x else PyFloat x.

(** [a + b], [a - b], [a * b]: integers stay integers, anything else is a
    float; the result is a numpy scalar as soon as one operand is. *)
Definition arith (fz : Z -> Z -> Z) (ff : F -> F -> F) (a b : pyobj) : pyobj :=
  match a, b with
  | PyInt x, PyInt y => PyInt (fz x y)
  | PyInt x, NpInt64 y | NpInt64 x, PyInt y | NpInt64 x, NpInt64 y =>
      NpInt64 (wrap64 (fz x y))
  | _, _ => mk_float (is_numpy a || is_numpy b) (ff (as_float a) (as_float b))
  end.

Definition py_add : pyobj -> pyobj -> pyobj := arith Z.add fadd.
Definition py_sub : pyobj -> pyobj -> pyobj := arith Z.sub fsub.
Definition py_mul : pyobj -> pyobj -> pyobj := arith Z.mul fmul.

(** [a / total] where [total] is a Python [int]: the built-in division
    raises on a zero divisor, numpy's warns and returns NaN or an infinity. *)
Definition py_truediv (a : pyobj) (total : Z) : result pyobj :=
  if (total =? 0) && negb (is_numpy a) then Raise ZeroDivisionError
  else Return (mk_float (is_numpy a) (fdiv (as_float a) (of_Z total))).

Definition py_lt (a b : pyobj) : bool := fltb (as_float a) (as_float b).
Definition py_gt (a b : pyobj) : bool := fltb (as_float b) (as_float a).

(** The built-ins [min(a, b)] and [max(a, b)]: the first argument is kept
    unless the second compares strictly smaller (larger). *)
Definition py_min (a b : pyobj) : pyobj := if py_lt b a then b else a.
Definition py_max (a b : pyobj) : pyobj := if py_gt b a then b else a.

(** A float literal of the source. *)
Definition lit (q : Q) : pyobj := PyFloat (of_Q q).

(** An integer object, of numpy ([np = true]) or built-in. *)
Definition int_obj (np : bool) (z : Z) : pyobj :=
  if np then NpInt64 z else PyInt z.

Definition is_float (o : pyobj) : bool :=
  match o with
  | PyFloat _ | NpFloat64 _ => true
  | PyInt _ | NpInt64 _ => false
  end.
End Values.
Arguments pyobj F : clear implicits.

Declare Scope py_scope.
Delimit Scope py_scope with py.
Infix "+" := py_add : py_scope.
Infix "-" := py_sub : py_scope.
Infix "*" := py_mul : py_scope.
Infix ">" := py_gt : py_scope.

(** ** Strings: [str.lower] and the substring test [in] *)

(** [str.lower] on ASCII text: the class names and keywords are ASCII. *)
Definition ascii_lower (c : ascii) : ascii :=
  let n := nat_of_ascii c in
  if ((65 <=? n) && (n <=? 90))%nat then ascii_of_nat (n + 32) else c.

Fixpoint lower (s : string) : string :=
  match s with
  | EmptyString => EmptyString
  | String c s' => String (ascii_lower c) (lower s')
  end.

Fixpoint startswith (p s : string) : bool :=
  match p, s with
  | EmptyString, _ => true
  | String a p', String b s' => Ascii.eqb a b && startswith p' s'
  | String _ _, EmptyString => false
  end.

(** [sub in s] *)
Fixpoint str_in (sub s : string) : bool :=
  startswith sub s ||
  match s with
  | EmptyString => false
  | String _ s' => str_in sub s'
  end.

(** ** [get_id_by_name] (lines 22-32) *)

Definition get_id_by_name (id2label : gmap Z string) (keyword_list : list string)
  : list Z :=
  let found_ids : list Z :=
    '(id, label) ← map_to_list id2label;
    key ← keyword_list;
    if str_in (lower key) (lower label) then [id] else [] in
  elements (list_to_set found_ids : gset Z).

(** ** numpy arrays *)

(** The predicted semantic map: a 2-D array of class ids, as its rows. *)
Definition ndarray : Type := list (list Z).

Definition ravel (a : ndarray) : list Z := concat a.

(** [a.size], a Python [int] *)
Definition np_size (a : ndarray) : Z := Z.of_nat (length (ravel a)).

Definition count_px (a : ndarray) (i : Z) : Z :=
  Z.of_nat (count_occ Z.eq_dec (ravel a) i).

Fixpoint insert_sorted (x : Z) (l : list Z) : list Z :=
  match l with
  | [] => [x]
  | y :: l' =>
      if x <? y then x :: l
      else if x =? y then l
      else y :: insert_sorted x l'
  end.

(** [np.unique(a, return_counts=True)]: the sorted distinct values and how
    often each occurs. *)
Definition np_unique (a : ndarray) : list Z * list Z :=
  let unique := foldr insert_sorted [] (ravel a) in
  (unique, map (fun u => wrap64 (count_px a u)) unique).

(** What the program prints. *)
Inductive line (F : Type) : Type :=
  | ErrorOpeningImage
  | BreakdownHeader
  | BreakdownEntry (label : string) (pct : pyobj F)
  | BreakdownFooter.
Arguments ErrorOpeningImage {F}.
Arguments BreakdownHeader {F}.
Arguments BreakdownEntry {F} label pct.
Arguments BreakdownFooter {F}.

Section Scorer.
Context {F : Type} {ops : FloatOps F}.

(** [np.sum(a == i)], a [numpy.int64] *)
Definition np_sum_eq (a : ndarray) (i : Z) : pyobj F :=
  NpInt64 (wrap64 (count_px a i)).

(** the built-in [sum], which starts from the [int] 0 *)
Definition py_sum (l : list (pyobj F)) : pyobj F := fold_left py_add l (PyInt 0).

(** *** Scoring logic (lines 78-128) *)

Definition scoring_logic
    (bike_lane_px water_px nature_px road_px ugly_px : pyobj F) (total : Z)
  : result (pyobj F * status) :=
  bike_lane_ratio ← py_truediv bike_lane_px total;
  water_ratio ← py_truediv water_px total;
  nature_ratio ← py_truediv nature_px total;
  let status := Neutral in
  let bonus := PyInt 0 in
  let penalty := PyInt 0 in
  '(status, bonus, penalty, ugly_px) ←
    (if (water_ratio > lit 0.10)%py then
       Return (Waterfront, lit 0.3, penalty, (ugly_px * lit 0.5)%py)
     else if (bike_lane_ratio > lit 0.05)%py then
       Return (DedicatedBikeLane, lit 0.2, PyInt 0, ugly_px)
     else if (nature_ratio > lit 0.40)%py then
       Return (GreenTunnel, lit 0.1, penalty, ugly_px)
     else
       road_ratio ← py_truediv road_px total;
       if (road_ratio > lit 0.40)%py then
         Return (CityStreetNoBikeLane, bonus, lit 0.2, ugly_px)
       else
         Return (MixedUrban, bonus, penalty, ugly_px));
  let score :=
    (lit 0.5 + nature_ratio * lit 0.5 + water_ratio * lit 1.5
     + bike_lane_ratio * lit 2.0)%py in
  ugly_ratio ← py_truediv ugly_px total;
  let score := (score - ugly_ratio * lit 0.5 + bonus - penalty)%py in
  let score := py_max (lit 0.0) (py_min (lit 1.0) score) in
  Return (score, status).

Context (id2label : gmap Z string).

(** *** The class groups (lines 36-40) *)

Definition BIKE_LANE_IDS : list Z := get_id_by_name id2label ["bike lane"].
Definition WATER_IDS : list Z := get_id_by_name id2label ["water"].
Definition NATURE_IDS : list Z :=
  get_id_by_name id2label ["vegetation"; "terrain"; "mountain"; "sand"; "sky"].
Definition ROAD_IDS : list Z :=
  get_id_by_name id2label ["road"; "service lane"; "crosswalk"].
Definition UGLY_IDS : list Z :=
  get_id_by_name id2label
    ["building"; "wall"; "fence"; "car"; "truck"; "bus"; "barrier"].

(** *** Debug breakdown (lines 131-144) *)

Fixpoint debug_loop (items : list (Z * Z)) (total : Z) : result (list (line F)) :=
  match items with
  | [] => Return []
  | (class_id, count) :: items' =>
      let label := default (pretty class_id) (id2label !! class_id) in
      pct ← py_truediv (NpInt64 count) total;
      let printed :=
        if (pct > lit 0.02)%py then [BreakdownEntry label pct] else [] in
      rest ← debug_loop items' total;
      Return (printed ++ rest)
  end.

Definition debug_breakdown (pred_seg : ndarray) (total : Z)
  : result (list (line F)) :=
  let '(unique, counts) := np_unique pred_seg in
  entries ← debug_loop (zip unique counts) total;
  Return ([BreakdownHeader] ++ entries ++ [BreakdownFooter]).

(** *** [calculate_score] from the predicted map on (lines 69-146)

    Every division of the scoring logic comes before the first line of the
    breakdown is printed, and the breakdown itself raises nothing (see
    [debug_breakdown_returns]). *)

Definition score_segmentation (pred_seg : ndarray) (debug : bool)
  : list (line F) * result (pyobj F * status) :=
  let total := np_size pred_seg in
  let bike_lane_px := py_sum (map (np_sum_eq pred_seg) BIKE_LANE_IDS) in
  let water_px := py_sum (map (np_sum_eq pred_seg) WATER_IDS) in
  let nature_px := py_sum (map (np_sum_eq pred_seg) NATURE_IDS) in
  let road_px := py_sum (map (np_sum_eq pred_seg) ROAD_IDS) in
  let ugly_px := py_sum (map (np_sum_eq pred_seg) UGLY_IDS) in
  match scoring_logic bike_lane_px water_px nature_px road_px ugly_px total with
  | Raise e => ([], Raise e)
  | Return (score, status) =>
      if debug then
        match debug_breakdown pred_seg total with
        | Raise e => ([], Raise e)
        | Return out => (out, Return (score, status))
        end
      else ([], Return (score, status))
  end.

(** *** [calculate_score] (lines 45-146)

    Opening the file and running the segmentation model are outside the
    program: [Image_open] is [None] when [Image.open(..).convert("RGB")]
    raises, and [segment] stands for the processor, the model and the
    post-processing into the class-id map. *)
Context {image : Type}.
Context (Image_open : string -> option image) (segment : image -> ndarray).

Definition calculate_score (image_path : string) (debug : bool)
  : list (line F) * result (pyobj F * status) :=
  match Image_open image_path with
  | None => ([ErrorOpeningImage], Return (lit 0.5, Error))
  | Some image => score_segmentation (segment image) debug
  end.
End Scorer.

(** ** [request.py]

    The coordinates [lat] and [lon] are floats.  The photo service and the
    file system are outside the program: [search] is the parsed JSON answer
    to the bounding-box query ([None] when [requests.get] or
    [response.json()] raises), [fetch_image] downloads and decodes the image
    behind a URL, [save_jpeg] encodes the image into the file that
    [img.save] writes and [open_file] is what [Image.open] makes of a file;
    each is [None] when it raises. *)

(** A parsed JSON document.  A float is kept as the exact value of the
    double. *)
#[warning="-register-all"]
Inductive json : Type :=
  | JNull
  | JBool (b : bool)
  | JInt (z : Z)
  | JFloat (x : xfloat)
  | JStr (s : string)
  | JList (l : list json)
  | JDict (d : gmap string json).

(** truth value of an object in an [if] *)
Definition truthy (x : json) : bool :=
  match x with
  | JNull => false
  | JBool b => b
  | JInt z => negb (z =? 0)
  | JFloat (Fin q) => negb (Qzerob q)
  | JFloat _ => true
  | JStr s => negb (String.eqb s "")
  | JList l => match l with [] => false | _ :: _ => true end
  | JDict d => negb (bool_decide (d = ∅))
  end.

(** the exceptions raised inside [get_image_at_coordinate] *)
Inductive lookup_exn : Type :=
  | TypeError
  | KeyError
  | IndexError
  | RequestFailed.

Inductive tried (A : Type) : Type :=
  | Done (a : A)
  | Failed (e : lookup_exn).
Arguments Done {A} a.
Arguments Failed {A} e.

#[export] Instance tried_ret : MRet tried := fun A a => Done a.

#[export] Instance tried_bind : MBind tried := fun A B k m =>
  match m with
  | Done a => k a
  | Failed e => Failed e
  end.

(** [key in container], for a string [key] *)
Definition json_contains (key : string) (container : json) : tried bool :=
  match container with
  | JDict d => Done (bool_decide (is_Some (d !! key)))
  | JList l =>
      Done (existsb (fun x => match x with JStr s => String.eqb s key | _ => false end) l)
  | JStr s => Done (str_in key s)
  | JNull | JBool _ | JInt _ | JFloat _ => Failed TypeError
  end.

(** [container[key]], for a string [key] *)
Definition json_getitem (container : json) (key : string) : tried json :=
  match container with
  | JDict d =>
      match d !! key with
      | Some v => Done v
      | None => Failed KeyError
      end
  | _ => Failed TypeError
  end.

(** [len(x)]; only whether it is 0 is used, so a string is measured in bytes *)
Definition json_len (x : json) : tried nat :=
  match x with
  | JList l => Done (length l)
  | JStr s => Done (String.length s)
  | JDict d => Done (size d)
  | JNull | JBool _ | JInt _ | JFloat _ => Failed TypeError
  end.

(** [x[0]]; the keys of a JSON object are strings, so 0 is none of them *)
Definition json_first (x : json) : tried json :=
  match x with
  | JList (v :: _) => Done v
  | JList [] => Failed IndexError
  | JStr (String c _) => Done (JStr (String c EmptyString))
  | JStr EmptyString => Failed IndexError
  | JDict _ => Failed KeyError
  | JNull | JBool _ | JInt _ | JFloat _ => Failed TypeError
  end.

(** What [request.py] prints, the scorer's lines included. *)
Inductive request_line (F : Type) : Type :=
  | ApiError (e : lookup_exn)
  | FoundImage (lat lon : F)
  | NoStreetViewData (lat lon : F)
  | ScorerLine (l : line F).
Arguments ApiError {F} e.
Arguments FoundImage {F} lat lon.
Arguments NoStreetViewData {F} lat lon.
Arguments ScorerLine {F} l.

(** the second component of what [download_and_score] returns *)
Inductive context : Type :=
  | StatusOf (s : status)
  | NoData.

(** the exceptions that leave [download_and_score] *)
Inductive run_exn : Type :=
  | DownloadFailed
  | SaveFailed
  | ScorerRaised (e : exn).

Inductive run (A : Type) : Type :=
  | Returned (a : A)
  | Raised (e : run_exn).
Arguments Returned {A} a.
Arguments Raised {A} e.

Section Request.
Context {F : Type} {ops : FloatOps F}.
Context {image file : Type}.
Context (search : F -> F -> option json).

(** *** [get_image_at_coordinate] (lines 11-39); [None] is [JNull] *)
Definition get_image_at_coordinate (lat lon : F) : list (request_line F) * json :=
  let attempt : tried json :=
    data ← match search lat lon with
           | Some data => Done data
           | None => Failed RequestFailed
           end;
    has_data ← json_contains "data" data;
    found ←
      (if has_data : bool then
         items ← json_getitem data "data";
         n ← json_len items;
         Done (0 <? n)%nat
       else Done false);
    if found : bool then
      items ← json_getitem data "data";
      first ← json_first items;
      json_getitem first "thumb_1024_url"
    else Done JNull in
  match attempt with
  | Done url => ([], url)
  | Failed e => ([ApiError e], JNull)
  end.

Context (id2label : gmap Z string) (segment : image -> ndarray).
Context (fetch_image : json -> option image).
Context (save_jpeg : image -> option file) (open_file : file -> option image).

(** *** [download_and_score] (lines 41-68), from the files [fs] on disk *)
Definition download_and_score (fs : gmap string file) (lat lon : F)
  : list (request_line F) * run (option (pyobj F) * context) :=
  let '(out, image_url) := get_image_at_coordinate lat lon in
  if truthy image_url then
    let out := out ++ [FoundImage lat lon] in
    match fetch_image image_url with
    | None => (out, Raised DownloadFailed)
    | Some img =>
        let temp_filename := "temp_scan.jpg" in
        match save_jpeg img with
        | None => (out, Raised SaveFailed)
        | Some saved =>
            let fs := <[temp_filename := saved]> fs in
            let Image_open (path : string) := fs !! path ≫= open_file in
            match calculate_score id2label Image_open segment temp_filename true with
            | (lines, Return (score, status)) =>
                (out ++ (ScorerLine <$> lines),
                 Returned (Some score, StatusOf status))
            | (lines, Raise e) =>
                (out ++ (ScorerLine <$> lines), Raised (ScorerRaised e))
            end
        end
    end
  else (out ++ [NoStreetViewData lat lon], Returned (None, NoData)).
End Request.

(** * The specification

    ** The specification's reading of the scorer (spec 4.2-4.4)

    These definitions follow the words of the specification, over exact
    rationals; the theorems below compare the program with them. *)

Record ratios : Type := Ratios {
  bike_lane_ratio : Q;
  water_ratio : Q;
  nature_ratio : Q;
  road_ratio : Q;
  ugly_ratio : Q
}.

(** each group's pixel count divided by the total pixel count *)
Definition group_ratios (bike_lane_px water_px nature_px road_px ugly_px total : Z)
  : ratios :=
  let ratio (px : Z) : Q := (inject_Z px / inject_Z total)%Q in
  {| bike_lane_ratio := ratio bike_lane_px;
     water_ratio := ratio water_px;
     nature_ratio := ratio nature_px;
     road_ratio := ratio road_px;
     ugly_ratio := ratio ugly_px |}.

(** The rule table of the Context Classifier: status, bonus, penalty and
    ugly discount of the first rule that matches. *)
Definition classify (r : ratios) : status * Q * Q * Q :=
  if Qltb 0.10 (water_ratio r) then (Waterfront, 0.3, 0, 0.5)%Q
  else if Qltb 0.05 (bike_lane_ratio r) then (DedicatedBikeLane, 0.2, 0, 1.0)%Q
  else if Qltb 0.40 (nature_ratio r) then (GreenTunnel, 0.1, 0, 1.0)%Q
  else if Qltb 0.40 (road_ratio r) then (CityStreetNoBikeLane, 0, 0.2, 1.0)%Q
  else (MixedUrban, 0, 0, 1.0)%Q.

Definition classify_status (r : ratios) : status := (classify r).1.1.1.

Definition clamp (x lo hi : Q) : Q :=
  if Qltb x lo then lo else if Qltb hi x then hi else x.

(** the linear formula of the Score Synthesizer, before clamping *)
Definition raw_score (r : ratios) (bonus penalty ugly_discount : Q) : Q :=
  let effective_ugly_ratio := (ugly_ratio r * ugly_discount)%Q in
  (0.5
   + nature_ratio r * 0.5
   + water_ratio r * 1.5
   + bike_lane_ratio r * 2.0
   - effective_ugly_ratio * 0.5
   + bonus
   - penalty)%Q.

Definition synthesize (r : ratios) (bonus penalty ugly_discount : Q) : Q :=
  clamp (raw_score r bonus penalty ugly_discount) 0 1.

(** classifier and synthesizer in sequence *)
Definition spec_score (r : ratios) : Q :=
  let '(_, bonus, penalty, ugly_discount) := classify r in
  synthesize r bonus penalty ugly_discount.

(** The rule table as a relation: [first_match r t] when [t] is the (status,
    bonus, penalty, ugly discount) of the first rule whose condition holds
    for [r]. *)
Inductive first_match (r : ratios) : status * Q * Q * Q -> Prop :=
  | rule_water :
      (0.10 < water_ratio r)%Q ->
      first_match r (Waterfront, 0.3, 0, 0.5)%Q
  | rule_bike_lane :
      (water_ratio r <= 0.10)%Q -> (0.05 < bike_lane_ratio r)%Q ->
      first_match r (DedicatedBikeLane, 0.2, 0, 1.0)%Q
  | rule_nature :
      (water_ratio r <= 0.10)%Q -> (bike_lane_ratio r <= 0.05)%Q ->
      (0.40 < nature_ratio r)%Q ->
      first_match r (GreenTunnel, 0.1, 0, 1.0)%Q
  | rule_road :
      (water_ratio r <= 0.10)%Q -> (bike_lane_ratio r <= 0.05)%Q ->
      (nature_ratio r <= 0.40)%Q -> (0.40 < road_ratio r)%Q ->
      first_match r (CityStreetNoBikeLane, 0, 0.2, 1.0)%Q
  | rule_none :
      (water_ratio r <= 0.10)%Q -> (bike_lane_ratio r <= 0.05)%Q ->
      (nature_ratio r <= 0.40)%Q -> (road_ratio r <= 0.40)%Q ->
      first_match r (MixedUrban, 0, 0, 1.0)%Q.



(** [keyword] occurs in [name] up to case: some substring of [name] equals
    [keyword] once both are lowered. *)
Definition ci_substring (keyword name : string) : Prop :=
  exists pre mid post : string,
    name = pre +:+ mid +:+ post /\ lower mid = lower keyword.


(** the number of pixels of [a] whose class id is in [ids] *)
Definition group_px (a : ndarray) (ids : list Z) : Z :=
  Z.of_nat (length (filter (fun x => x ∈ ids) (ravel a))).

(** the five ratios of a predicted map, for the groups of a vocabulary *)
Definition map_ratios (id2label : gmap Z string) (a : ndarray) : ratios :=
  group_ratios
    (group_px a (BIKE_LANE_IDS id2label)) (group_px a (WATER_IDS id2label))
    (group_px a (NATURE_IDS id2label)) (group_px a (ROAD_IDS id2label))
    (group_px a (UGLY_IDS id2label)) (np_size a).



(** ** The value of an object in exact arithmetic *)

(** [o] is a finite number equal to [q] *)
Definition fin (o : pyobj xfloat) (q : Q) : Prop :=
  exists q' : Q, as_float o = Fin q' /\ (q' == q)%Q.

(** [o] is a float, the rational [q] in lowest terms *)
Definition val (o : pyobj xfloat) (q : Q) : Prop :=
  is_float o = true /\ as_float o = Fin (Qred q).

(** ** Helpers of the statements *)

(** whether a list has an element *)
Definition nonempty {A : Type} (l : list A) : bool :=
  match l with
  | [] => false
  | _ :: _ => true
  end.

(** a small vocabulary in which every group has a class *)
Definition sample_id2label : gmap Z string :=
  list_to_map
    [(0, "Bike Lane"); (1, "Water"); (2, "Vegetation"); (3, "Road");
     (4, "Building")].

(** the thumbnail URL of the first image in the answer to a search: the
    answer is an object whose "data" is an array whose first element is an
    object with the key "thumb_1024_url" *)
Definition first_thumbnail (answer : option json) : option json :=
  match answer with
  | Some (JDict d) =>
      match d !! "data" with
      | Some (JList (JDict e :: _)) => e !! "thumb_1024_url"
      | _ => None
      end
  | _ => None
  end.

(** the statuses that the scoring rules give *)
Definition rule_statuses : list status :=
  [Waterfront; DedicatedBikeLane; GreenTunnel; CityStreetNoBikeLane; MixedUrban].

(** an answer of the photo service with one image *)
Definition sample_answer : option json :=
  Some (JDict {[ "data" :=
          JList [JDict {[ "thumb_1024_url" := JStr "https://x/y.jpg" ]}] ]}).

(** * Properties *)

(** ** The program on concrete inputs *)

Example lower_bike_lane : lower "Bike Lane" = "bike lane".
Proof. reflexivity. Qed.

Example str_in_examples :
  str_in "lane" "bike lane" = true /\ str_in "car" "bike lane" = false
  /\ str_in "" "" = true.
Proof. by vm_compute. Qed.

Example sample_groups :
  BIKE_LANE_IDS sample_id2label = [0] /\ WATER_IDS sample_id2label = [1]
  /\ NATURE_IDS sample_id2label = [2] /\ ROAD_IDS sample_id2label = [3]
  /\ UGLY_IDS sample_id2label = [4].
Proof. by vm_compute. Qed.

Example np_unique_example :
  np_unique [[3; 1; 3]; [2; 3; 1]] = ([1; 2; 3], [2; 1; 3]).
Proof. by vm_compute. Qed.

(** 12 water pixels out of 10000: Mixed / Urban, score 0.5018 = 2509/5000. *)
#[warning="-inexact-float"]
Example scenario_A :
  scoring_logic (F:=xfloat) (NpInt64 0) (NpInt64 12) (NpInt64 0) (NpInt64 0)
    (NpInt64 0) 10000 = Return (NpFloat64 (Fin (2509 # 5000)), MixedUrban)
  /\ scoring_logic (F:=float) (NpInt64 0) (NpInt64 12) (NpInt64 0) (NpInt64 0)
       (NpInt64 0) 10000 = Return (NpFloat64 0.5018%float, MixedUrban).
Proof. split; vm_compute; reflexivity. Qed.

(** bike lane ratio 0.06, water ratio 0.02: Dedicated Bike Lane, bonus 0.2. *)
Example scenario_C :
  scoring_logic (F:=xfloat) (NpInt64 6) (NpInt64 2) (NpInt64 0) (NpInt64 0)
    (NpInt64 0) 100 = Return (NpFloat64 (Fin (17 # 20)), DedicatedBikeLane).
Proof. vm_compute. reflexivity. Qed.

(** a map of 100 pixels through the whole scorer, with the breakdown *)
Example score_segmentation_example :
  score_segmentation (F:=xfloat) sample_id2label
    [repeat 1 12 ++ repeat 4 20 ++ repeat 9 67 ++ [3]] true
  = ([BreakdownHeader;
      BreakdownEntry "Water" (NpFloat64 (Fin (3 # 25)));
      BreakdownEntry "Building" (NpFloat64 (Fin (1 # 5)));
      BreakdownEntry "9" (NpFloat64 (Fin (67 # 100)));
      BreakdownFooter],
     Return (NpFloat64 (Fin 0.93), Waterfront)).
Proof. vm_compute. reflexivity. Qed.

(** ** Rationals: comparisons and lowest terms *)

Lemma Qltb_lt (a b : Q) : Qltb a b = true <-> (a < b)%Q.
Proof.
  unfold Qltb. rewrite Qlt_alt. destruct (a ?= b)%Q; split; congruence.
Qed.

Lemma Qltb_ge (a b : Q) : Qltb a b = false <-> (b <= a)%Q.
Proof.
  rewrite <- not_true_iff_false, Qltb_lt. split.
  - apply Qnot_lt_le.
  - apply Qle_not_lt.
Qed.

#[export] Instance Qltb_proper : Proper (Qeq ==> Qeq ==> eq) Qltb.
Proof.
  intros a a' Ha b b' Hb. unfold Qltb. now rewrite Ha, Hb.
Qed.

#[export] Instance clamp_proper : Proper (Qeq ==> Qeq ==> Qeq ==> Qeq) clamp.
Proof.
  intros x x' Hx lo lo' Hlo hi hi' Hhi. unfold clamp.
  rewrite (Qltb_proper _ _ Hx _ _ Hlo), (Qltb_proper _ _ Hhi _ _ Hx).
  by destruct (Qltb x' lo'), (Qltb hi' x').
Qed.

Lemma Qzerob_false (a : Q) : ~ (a == 0)%Q -> Qzerob a = false.
Proof.
  intros Ha. unfold Qzerob. destruct (a ?= 0)%Q eqn:E; try reflexivity.
  apply Qeq_alt in E. contradiction.
Qed.

Lemma Qred_eq (a b : Q) : (a == b)%Q -> Qred a = Qred b.
Proof. apply Qred_complete. Qed.

Lemma inject_Z_nonzero (z : Z) : z <> 0 -> ~ (inject_Z z == 0)%Q.
Proof.
  intros Hz E. apply Hz. unfold Qeq in E. simpl in E. lia.
Qed.

(** ** Values in exact arithmetic: lemmas *)

Section ExactValues.
Implicit Types (a b o : pyobj xfloat) (p q : Q).

Lemma val_fin o q : val o q -> fin o q.
Proof. intros [_ H]. exists (Qred q). split; [done | apply Qred_correct]. Qed.

Lemma val_eq o p q : val o p -> (p == q)%Q -> val o q.
Proof. intros [Hf H] E. split; [done |]. by rewrite H, (Qred_eq _ _ E). Qed.

Lemma fin_int k z : fin (int_obj k z) (inject_Z z).
Proof. exists (inject_Z z). by destruct k. Qed.

Lemma val_lit q : val (lit q) q.
Proof. done. Qed.

Lemma val_mk_float k q : val (mk_float k (Fin (Qred q))) q.
Proof. by destruct k. Qed.

Lemma arith_float fz ff a b :
  is_float a || is_float b = true ->
  arith fz ff a b = mk_float (is_numpy a || is_numpy b) (ff (as_float a) (as_float b)).
Proof. by destruct a, b. Qed.

Lemma val_add a b p q :
  is_float a || is_float b = true -> fin a p -> fin b q -> val (a + b)%py (p + q).
Proof.
  intros Hf (p' & Ha & Ep) (q' & Hb & Eq). unfold py_add.
  rewrite arith_float, Ha, Hb by done. cbn.
  eapply val_eq; [apply val_mk_float |]. by rewrite Ep, Eq.
Qed.

Lemma val_sub a b p q :
  is_float a || is_float b = true -> fin a p -> fin b q -> val (a - b)%py (p - q).
Proof.
  intros Hf (p' & Ha & Ep) (q' & Hb & Eq). unfold py_sub.
  rewrite arith_float, Ha, Hb by done. cbn.
  eapply val_eq; [apply val_mk_float |].
  rewrite Qred_correct, Ep, Eq. reflexivity.
Qed.

Lemma val_mul a b p q :
  is_float a || is_float b = true -> fin a p -> fin b q -> val (a * b)%py (p * q).
Proof.
  intros Hf (p' & Ha & Ep) (q' & Hb & Eq). unfold py_mul.
  rewrite arith_float, Ha, Hb by done. cbn.
  eapply val_eq; [apply val_mk_float |]. by rewrite Ep, Eq.
Qed.

Lemma truediv_val a p total :
  total <> 0 -> fin a p ->
  exists o, py_truediv a total = Return o /\ val o (p / inject_Z total).
Proof.
  intros Ht (p' & Ha & Ep). unfold py_truediv.
  rewrite (proj2 (Z.eqb_neq total 0) Ht). cbn [andb]. eexists. split; [done |].
  rewrite Ha. cbn. rewrite Qzerob_false by by apply inject_Z_nonzero.
  eapply val_eq; [apply val_mk_float |]. by rewrite Ep.
Qed.

Lemma py_gt_fin a b p q : fin a p -> fin b q -> (a > b)%py = Qltb q p.
Proof.
  intros (p' & Ha & Ep) (q' & Hb & Eq). unfold py_gt.
  rewrite Ha, Hb. cbn. by rewrite Ep, Eq.
Qed.

Lemma fin_PyInt z : fin (PyInt z) (inject_Z z).
Proof. apply (fin_int false). Qed.

Lemma val_add_l a b p q : val a p -> fin b q -> val (a + b)%py (p + q).
Proof. intros Ha Hb. apply val_add; [by rewrite (proj1 Ha) | by apply val_fin | done]. Qed.

Lemma val_sub_l a b p q : val a p -> fin b q -> val (a - b)%py (p - q).
Proof. intros Ha Hb. apply val_sub; [by rewrite (proj1 Ha) | by apply val_fin | done]. Qed.

Lemma val_mul_r a b p q : fin a p -> val b q -> val (a * b)%py (p * q).
Proof.
  intros Ha Hb. apply val_mul; [by rewrite (proj1 Hb), orb_true_r | done | by apply val_fin].
Qed.

(** The clamp [max(0.0, min(1.0, score))] is the specification's. *)
Lemma clamp_val o q :
  val o q -> val (py_max (lit 0.0) (py_min (lit 1.0) o)) (clamp q 0 1).
Proof.
  intros Hv. pose proof (val_fin _ _ Hv) as Hfin.
  pose proof (val_fin _ _ (val_lit 0.0)) as H0fin.
  pose proof (val_fin _ _ (val_lit 1.0)) as H1fin.
  unfold py_min, py_max, clamp.
  change (py_lt o (lit 1.0)) with (lit 1.0 > o)%py.
  rewrite (py_gt_fin _ _ _ _ H1fin Hfin).
  destruct (Qltb q 1.0) eqn:H1.
  - rewrite (py_gt_fin _ _ _ _ Hfin H0fin). apply Qltb_lt in H1.
    replace (Qltb 1 q) with false by (symmetry; apply Qltb_ge; lra).
    destruct (Qltb 0.0 q) eqn:H0.
    + apply Qltb_lt in H0.
      by replace (Qltb q 0) with false by (symmetry; apply Qltb_ge; lra).
    + apply Qltb_ge in H0.
      destruct (Qltb q 0) eqn:H0'; [apply (val_lit 0.0) |].
      apply Qltb_ge in H0'. eapply val_eq; [apply (val_lit 0.0) | lra].
  - rewrite (py_gt_fin _ _ _ _ H1fin H0fin). apply Qltb_ge in H1.
    replace (Qltb 0.0 1.0) with true by done.
    replace (Qltb q 0) with false by (symmetry; apply Qltb_ge; lra).
    destruct (Qltb 1 q) eqn:H1'; [apply (val_lit 1.0) |].
    apply Qltb_ge in H1'. eapply val_eq; [apply (val_lit 1.0) | lra].
Qed.
End ExactValues.

(** Computes the value of an arithmetic expression of the program. *)
Ltac solve_val :=
  lazymatch goal with
  | |- val (lit _) _ => apply val_lit
  | |- val (_ + _)%py _ => apply val_add_l; solve_val
  | |- val (_ - _)%py _ => apply val_sub_l; solve_val
  | |- val (_ * _)%py _ => apply val_mul_r; solve_val
  | |- val (py_max _ _) _ => apply clamp_val; solve_val
  | |- val _ _ => eassumption
  | |- fin (int_obj _ _) _ => apply fin_int
  | |- fin (PyInt _) _ => apply fin_PyInt
  | |- fin _ _ => first [eassumption | apply val_fin; solve_val]
  end.

(** ** The scoring logic in exact arithmetic *)

Section ExactScoring.
Variables (kb kw kn kr ku : bool) (b w n r u total : Z).
Hypothesis total_nonzero : total <> 0.

Let rt : ratios := group_ratios b w n r u total.

(** On integer pixel counts and a non-zero total the scoring logic returns
    the status and the score of the specification's classifier and
    synthesizer. *)
Lemma scoring_logic_exact :
  exists score : pyobj xfloat,
    scoring_logic (int_obj kb b) (int_obj kw w) (int_obj kn n) (int_obj kr r)
      (int_obj ku u) total = Return (score, classify_status rt)
    /\ val score (spec_score rt).
Proof.
  destruct (truediv_val (int_obj kb b) _ total total_nonzero (fin_int kb b))
    as (br & Eb & Vb).
  destruct (truediv_val (int_obj kw w) _ total total_nonzero (fin_int kw w))
    as (wr & Ew & Vw).
  destruct (truediv_val (int_obj kn n) _ total total_nonzero (fin_int kn n))
    as (nr & En & Vn).
  destruct (truediv_val (int_obj kr r) _ total total_nonzero (fin_int kr r))
    as (rr & Er & Vr).
  unfold scoring_logic. rewrite Eb, Ew, En. cbn [mbind result_bind].
  rewrite (py_gt_fin wr (lit 0.10) _ _ (val_fin _ _ Vw) (val_fin _ _ (val_lit _))).
  rewrite (py_gt_fin br (lit 0.05) _ _ (val_fin _ _ Vb) (val_fin _ _ (val_lit _))).
  rewrite (py_gt_fin nr (lit 0.40) _ _ (val_fin _ _ Vn) (val_fin _ _ (val_lit _))).
  unfold classify_status, spec_score, classify, rt, group_ratios.
  cbn [water_ratio bike_lane_ratio nature_ratio road_ratio ugly_ratio].
  assert (Hq : ~ (inject_Z total == 0)%Q) by by apply inject_Z_nonzero.
  destruct (Qltb 0.10 _).
  { destruct (truediv_val (int_obj ku u * lit 0.5)%py (inject_Z u * 0.5) total)
      as (ur & Eu & Vu); [done | solve_val |].
    cbn [mbind result_bind]. rewrite Eu. cbn [mbind result_bind].
    eexists. split; [reflexivity |].
    eapply val_eq; [solve_val |].
    apply clamp_proper; [| done..]. unfold raw_score. cbn. field. done. }
  destruct (truediv_val (int_obj ku u) _ total total_nonzero (fin_int ku u))
    as (ur & Eu & Vu).
  assert (Hbranch : forall (st : status) (bonus penalty : pyobj xfloat) (qb qp : Q),
    fin bonus qb -> fin penalty qp ->
    exists score : pyobj xfloat,
      (Return (st, bonus, penalty, int_obj ku u)
       ≫= (λ '(status0, bonus, penalty, ugly_px),
             py_truediv ugly_px total
             ≫= λ ugly_ratio0 : pyobj xfloat,
                  Return
                    (py_max (lit 0.0)
                       (py_min (lit 1.0)
                          (lit 0.5 + nr * lit 0.5 + wr * lit 1.5 + br * lit 2.0 -
                           ugly_ratio0 * lit 0.5 + bonus - penalty)%py),
                     status0)))
      = Return (score, st)
      /\ val score
           (synthesize
              {| bike_lane_ratio := inject_Z b / inject_Z total;
                 water_ratio := inject_Z w / inject_Z total;
                 nature_ratio := inject_Z n / inject_Z total;
                 road_ratio := inject_Z r / inject_Z total;
                 ugly_ratio := inject_Z u / inject_Z total |} qb qp 1.0)).
  { intros st bonus penalty qb qp Hb Hp.
    cbn [mbind result_bind]. rewrite Eu. cbn [mbind result_bind].
    eexists. split; [reflexivity |].
    eapply val_eq; [solve_val |].
    apply clamp_proper; [| done..]. unfold raw_score. cbn. field. done. }
  destruct (Qltb 0.05 _).
  { apply (Hbranch _ _ _ 0.2 0)%Q; solve_val. }
  destruct (Qltb 0.40 (inject_Z n / inject_Z total)).
  { apply (Hbranch _ _ _ 0.1 0)%Q; solve_val. }
  rewrite Er. cbn [mbind result_bind].
  rewrite (py_gt_fin rr (lit 0.40) _ _ (val_fin _ _ Vr) (val_fin _ _ (val_lit _))).
  destruct (Qltb 0.40 _).
  - apply (Hbranch _ _ _ 0 0.2)%Q; solve_val.
  - apply (Hbranch _ _ _ 0 0)%Q; solve_val.
Qed.
End ExactScoring.

(** ** The rule table *)

Lemma classify_first_match (r : ratios) : first_match r (classify r).
Proof.
  unfold classify.
  destruct (Qltb 0.10 _) eqn:Hw; [apply Qltb_lt in Hw; by constructor |].
  destruct (Qltb 0.05 _) eqn:Hb; [apply Qltb_lt in Hb; apply Qltb_ge in Hw; by constructor |].
  destruct (Qltb 0.40 (nature_ratio r)) eqn:Hn;
    [apply Qltb_lt in Hn; apply Qltb_ge in Hw, Hb; by constructor |].
  destruct (Qltb 0.40 (road_ratio r)) eqn:Hr.
  - apply Qltb_lt in Hr; apply Qltb_ge in Hw, Hb, Hn; by constructor.
  - apply Qltb_ge in Hw, Hb, Hn, Hr; by constructor.
Qed.

Lemma first_match_unique (r : ratios) (t t' : status * Q * Q * Q) :
  first_match r t -> first_match r t' -> t = t'.
Proof.
  intros H H'. destruct H; destruct H'; try reflexivity; exfalso; lra.
Qed.

Lemma first_match_classify (r : ratios) (t : status * Q * Q * Q) :
  first_match r t -> t = classify r.
Proof. intros H. eapply first_match_unique; [done | apply classify_first_match]. Qed.


(** ** Score formula and status selection *)

Lemma scoring_logic_first_match (kb kw kn kr ku : bool) (b w n r u total : Z)
    (st : status) (bonus penalty ugly_discount : Q) :
  total <> 0 ->
  first_match (group_ratios b w n r u total) (st, bonus, penalty, ugly_discount) ->
  exists score : pyobj xfloat,
    scoring_logic (int_obj kb b) (int_obj kw w) (int_obj kn n) (int_obj kr r)
      (int_obj ku u) total = Return (score, st)
    /\ val score (synthesize (group_ratios b w n r u total) bonus penalty ugly_discount).
Proof.
  intros Ht Hm.
  destruct (scoring_logic_exact kb kw kn kr ku b w n r u total Ht) as (score & E & V).
  exists score. apply first_match_classify in Hm.
  unfold classify_status in E. unfold spec_score in V.
  by rewrite <- Hm in E, V.
Qed.






(** ** The clamp *)

Lemma bind_return {A B : Type} (m : result A) (k : A -> result B) (b : B) :
  m ≫= k = Return b -> exists a : A, m = Return a /\ k a = Return b.
Proof. destruct m as [a | e]; [eauto | discriminate]. Qed.

Section AnyArithmetic.
Context {F : Type} {ops : FloatOps F}.
Implicit Types (a o : pyobj F).

Lemma py_truediv_nonzero a (total : Z) :
  total <> 0 ->
  py_truediv a total = Return (mk_float (is_numpy a) (fdiv (as_float a) (of_Z total))).
Proof. intros Ht. unfold py_truediv. by rewrite (proj2 (Z.eqb_neq total 0) Ht). Qed.

Lemma py_truediv_numpy a (total : Z) :
  is_numpy a = true ->
  py_truediv a total = Return (NpFloat64 (fdiv (as_float a) (of_Z total))).
Proof. intros Ha. unfold py_truediv. by rewrite Ha, andb_false_r. Qed.

(** Whatever the scoring logic returns went through the clamp. *)
Lemma scoring_logic_clamps (bike_lane_px water_px nature_px road_px ugly_px : pyobj F)
    (total : Z) (score : pyobj F) (st : status) :
  scoring_logic bike_lane_px water_px nature_px road_px ugly_px total
    = Return (score, st) ->
  exists raw : pyobj F, score = py_max (lit 0.0) (py_min (lit 1.0) raw).
Proof.
  unfold scoring_logic. intros H.
  apply bind_return in H as (bike_lane_ratio & _ & H).
  apply bind_return in H as (water_ratio & _ & H).
  apply bind_return in H as (nature_ratio & _ & H).
  apply bind_return in H as ([[[st' bonus] penalty] ugly_px'] & _ & H).
  apply bind_return in H as (ugly_ratio & _ & H).
  injection H as <- _. eauto.
Qed.

(** With a non-zero total no division raises. *)
Lemma scoring_logic_returns (bike_lane_px water_px nature_px road_px ugly_px : pyobj F)
    (total : Z) :
  total <> 0 ->
  exists (score : pyobj F) (st : status),
    scoring_logic bike_lane_px water_px nature_px road_px ugly_px total
      = Return (score, st).
Proof.
  intros Ht. unfold scoring_logic. rewrite !py_truediv_nonzero by done. cbn.
  repeat case_match; cbn; rewrite ?py_truediv_nonzero by done; cbn; eauto.
Qed.
End AnyArithmetic.

(** The clamp of any exact value, NaN and the infinities included, is a
    rational of [0, 1]. *)
Lemma clamp_range_exact (o : pyobj xfloat) :
  exists q : Q,
    as_float (py_max (lit 0.0) (py_min (lit 1.0) o)) = Fin q /\ (0 <= q <= 1)%Q.
Proof.
  unfold py_max, py_min, py_gt, py_lt.
  destruct (as_float o) as [q | | |] eqn:Ho; cbn.
  - destruct (Qltb q (Qred 1.0)) eqn:H1; cbn; rewrite ?Ho; cbn.
    + destruct (Qltb (Qred 0.0) q) eqn:H0; cbn; rewrite ?Ho.
      * exists q. apply Qltb_lt in H0, H1. rewrite Qred_correct in H0, H1.
        split; [done | lra].
      * exists 0%Q. split; [done | lra].
    + exists 1%Q. split; [done | lra].
  - exists 1%Q. split; [done | lra].
  - rewrite Ho. cbn. exists 0%Q. split; [done | lra].
  - exists 1%Q. split; [done | lra].
Qed.

Lemma b64_ltb_leb (x y : float) : PrimFloat.ltb x y = true -> PrimFloat.leb x y = true.
Proof.
  rewrite FloatAxioms.ltb_spec, FloatAxioms.leb_spec. unfold SFltb, SFleb.
  by destruct (SFcompare _ _) as [[] |].
Qed.

(** The clamp of any binary64 value, NaN and the infinities included, lies
    between 0.0 and 1.0. *)
Lemma clamp_range_binary64 (o : pyobj float) :
  let score := as_float (py_max (lit 0.0) (py_min (lit 1.0) o)) in
  PrimFloat.leb 0 score = true /\ PrimFloat.leb score 1 = true.
Proof.
  unfold py_max, py_min, py_gt, py_lt.
  change (as_float (lit 1.0)) with (of_Q 1.0 : float).
  change (as_float (lit 0.0)) with (of_Q 0.0 : float).
  replace (of_Q 1.0 : float) with 1%float by (vm_compute; reflexivity).
  replace (of_Q 0.0 : float) with 0%float by (vm_compute; reflexivity).
  change (@fltb float binary64_ops) with PrimFloat.ltb.
  destruct (PrimFloat.ltb (as_float o) 1) eqn:H1.
  - destruct (PrimFloat.ltb 0 (as_float o)) eqn:H0.
    + split; by apply b64_ltb_leb.
    + split; vm_compute; reflexivity.
  - replace (PrimFloat.ltb 0 (as_float (lit 1.0))) with true by (vm_compute; reflexivity).
    split; vm_compute; reflexivity.
Qed.

(** Any score the scoring logic returns, on any objects and any total, is in
    range: in exact arithmetic ... *)
Lemma returned_score_in_range_exact
    (bike_lane_px water_px nature_px road_px ugly_px : pyobj xfloat) (total : Z)
    (score : pyobj xfloat) (st : status) :
  scoring_logic bike_lane_px water_px nature_px road_px ugly_px total
    = Return (score, st) ->
  exists q : Q, as_float score = Fin q /\ (0 <= q <= 1)%Q.
Proof.
  intros H. apply scoring_logic_clamps in H as (raw & ->). apply clamp_range_exact.
Qed.

(** ... and on binary64. *)
Lemma returned_score_in_range_binary64
    (bike_lane_px water_px nature_px road_px ugly_px : pyobj float) (total : Z)
    (score : pyobj float) (st : status) :
  scoring_logic bike_lane_px water_px nature_px road_px ugly_px total
    = Return (score, st) ->
  PrimFloat.leb 0 (as_float score) = true /\ PrimFloat.leb (as_float score) 1 = true.
Proof.
  intros H. apply scoring_logic_clamps in H as (raw & ->). apply clamp_range_binary64.
Qed.

(** C3: on integer pixel counts and a non-zero total the scorer returns a
    score of [0.0, 1.0], in exact arithmetic and on binary64, whatever the raw
    value of the linear formula; with water_ratio 1.0 and bike_lane_ratio 1.0
    (and nature and ugly ratios of [0, 1]) the raw value exceeds 1 and the
    score is exactly 1.0. *)
Theorem score_within_unit_interval (kb kw kn kr ku : bool) (b w n r u total : Z) :
  total <> 0 ->
  let rt := group_ratios b w n r u total in
  (exists (score : pyobj xfloat) (st : status) (q : Q),
     scoring_logic (int_obj kb b) (int_obj kw w) (int_obj kn n) (int_obj kr r)
       (int_obj ku u) total = Return (score, st)
     /\ as_float score = Fin q /\ (0 <= q <= 1)%Q)
  /\ (exists (score : pyobj float) (st : status),
     scoring_logic (int_obj kb b) (int_obj kw w) (int_obj kn n) (int_obj kr r)
       (int_obj ku u) total = Return (score, st)
     /\ PrimFloat.leb 0 (as_float score) = true
     /\ PrimFloat.leb (as_float score) 1 = true)
  /\ ((water_ratio rt == 1.0)%Q -> (bike_lane_ratio rt == 1.0)%Q ->
      (0 <= nature_ratio rt)%Q -> (ugly_ratio rt <= 1)%Q ->
      (1 < raw_score rt 0.3 0 0.5)%Q
      /\ exists (score : pyobj xfloat) (st : status),
           scoring_logic (int_obj kb b) (int_obj kw w) (int_obj kn n)
             (int_obj kr r) (int_obj ku u) total = Return (score, st)
           /\ as_float score = Fin 1).
Proof.
  intros Ht rt. split; [| split].
  - destruct (scoring_logic_returns (F:=xfloat) (int_obj kb b) (int_obj kw w)
                (int_obj kn n) (int_obj kr r) (int_obj ku u) total Ht)
      as (score & st & E).
    destruct (returned_score_in_range_exact _ _ _ _ _ _ _ _ E) as (q & Hq & Hr).
    by exists score, st, q.
  - destruct (scoring_logic_returns (F:=float) (int_obj kb b) (int_obj kw w)
                (int_obj kn n) (int_obj kr r) (int_obj ku u) total Ht)
      as (score & st & E).
    exists score, st. split; [done |].
    by apply (returned_score_in_range_binary64 _ _ _ _ _ _ _ _ E).
  - intros Hw Hb Hn Hu.
    assert (Hraw : (1 < raw_score rt 0.3 0 0.5)%Q).
    { unfold raw_score. rewrite Hw, Hb. lra. }
    split; [done |].
    assert (Hm : first_match rt (Waterfront, 0.3, 0, 0.5)%Q)
      by (constructor; rewrite Hw; reflexivity).
    destruct (scoring_logic_first_match kb kw kn kr ku b w n r u total _ _ _ _ Ht Hm)
      as (score & E & V).
    exists score, Waterfront. split; [done |].
    assert (V' : val score 1).
    { eapply val_eq; [apply V |]. unfold synthesize, clamp. fold rt.
      replace (Qltb (raw_score rt 0.3 0 0.5) 0) with false
        by (symmetry; apply Qltb_ge; lra).
      by replace (Qltb 1 (raw_score rt 0.3 0 0.5)) with true
        by (symmetry; apply Qltb_lt; lra). }
    apply V'.
Qed.

Lemma score_within_unit_interval_witness :
  exists (score : pyobj xfloat) (st : status),
    scoring_logic (NpInt64 50) (NpInt64 50) (NpInt64 0) (NpInt64 0) (NpInt64 0) 50
      = Return (score, st)
    /\ as_float score = Fin 1.
Proof.
  apply (score_within_unit_interval true true true true true 50 50 0 0 0 50);
    [lia | reflexivity | reflexivity | by vm_compute | by vm_compute].
Defined.

(** ** The debug breakdown never raises *)

Section DebugReturns.
Context {F : Type} {ops : FloatOps F} (id2label : gmap Z string).

Lemma debug_loop_returns (items : list (Z * Z)) (total : Z) :
  exists out : list (line F), debug_loop id2label items total = Return out.
Proof.
  induction items as [| [class_id count] items (rest & IH)]; [by eexists |].
  cbn [debug_loop]. rewrite py_truediv_numpy by done. cbn [mbind result_bind].
  rewrite IH. cbn. by eexists.
Qed.

Lemma debug_breakdown_returns (pred_seg : ndarray) (total : Z) :
  exists out : list (line F), debug_breakdown id2label pred_seg total = Return out.
Proof.
  unfold debug_breakdown. destruct (np_unique pred_seg) as [unique counts].
  destruct (debug_loop_returns (zip unique counts) total) as (entries & ->).
  cbn. by eexists.
Qed.

(** The result of [score_segmentation] is the result of the scoring logic on
    the pixel counts, with or without debug output. *)
Lemma score_segmentation_result (pred_seg : ndarray) (debug : bool) :
  (score_segmentation id2label pred_seg debug).2 =
  scoring_logic
    (py_sum (map (np_sum_eq pred_seg) (BIKE_LANE_IDS id2label)))
    (py_sum (map (np_sum_eq pred_seg) (WATER_IDS id2label)))
    (py_sum (map (np_sum_eq pred_seg) (NATURE_IDS id2label)))
    (py_sum (map (np_sum_eq pred_seg) (ROAD_IDS id2label)))
    (py_sum (map (np_sum_eq pred_seg) (UGLY_IDS id2label)))
    (np_size pred_seg).
Proof.
  unfold score_segmentation.
  destruct (scoring_logic _ _ _ _ _ _) as [[score st] | e]; [| done].
  destruct debug; [| done].
  by destruct (debug_breakdown_returns pred_seg (np_size pred_seg)) as (out & ->).
Qed.
End DebugReturns.

(** ** From the predicted map to the scoring logic *)

Section PixelCounts.
Context {F : Type} {ops : FloatOps F}.

Lemma fold_py_add_int (a : ndarray) (ids : list Z) (k : bool) (z0 : Z) :
  exists z : Z,
    fold_left py_add (map (np_sum_eq (F:=F) a) ids) (int_obj k z0)
      = int_obj (k || nonempty ids) z.
Proof.
  revert k z0. induction ids as [| i ids IH]; intros k z0.
  - exists z0. by rewrite orb_false_r.
  - cbn [map fold_left].
    destruct (IH true (wrap64 (z0 + wrap64 (count_px a i)))) as (z & Hz).
    exists z. cbn [nonempty]. rewrite orb_true_r.
    replace (py_add (int_obj k z0) (np_sum_eq a i))
      with (int_obj (F:=F) true (wrap64 (z0 + wrap64 (count_px a i))))
      by by destruct k.
    apply Hz.
Qed.

(** A group's pixel count is an integer object: the [int] 0 when the group
    has no class, a [numpy.int64] otherwise. *)
Lemma py_sum_int (a : ndarray) (ids : list Z) :
  exists z : Z, py_sum (map (np_sum_eq (F:=F) a) ids) = int_obj (nonempty ids) z.
Proof. apply (fold_py_add_int a ids false 0). Qed.

(** The scorer runs the scoring logic on five integer objects and the size
    of the map: the theorems on [scoring_logic] apply to it. *)
Lemma score_segmentation_scoring (id2label : gmap Z string) (pred_seg : ndarray)
    (debug : bool) :
  exists b w n r u : Z,
    (score_segmentation (F:=F) id2label pred_seg debug).2
    = scoring_logic
        (int_obj (nonempty (BIKE_LANE_IDS id2label)) b)
        (int_obj (nonempty (WATER_IDS id2label)) w)
        (int_obj (nonempty (NATURE_IDS id2label)) n)
        (int_obj (nonempty (ROAD_IDS id2label)) r)
        (int_obj (nonempty (UGLY_IDS id2label)) u)
        (np_size pred_seg).
Proof.
  rewrite score_segmentation_result.
  destruct (py_sum_int pred_seg (BIKE_LANE_IDS id2label)) as (b & ->).
  destruct (py_sum_int pred_seg (WATER_IDS id2label)) as (w & ->).
  destruct (py_sum_int pred_seg (NATURE_IDS id2label)) as (n & ->).
  destruct (py_sum_int pred_seg (ROAD_IDS id2label)) as (r & ->).
  destruct (py_sum_int pred_seg (UGLY_IDS id2label)) as (u & ->).
  by exists b, w, n, r, u.
Qed.
End PixelCounts.

(** Whatever [calculate_score] returns, from any image and any vocabulary,
    carries a score of [0, 1]: in exact arithmetic and on binary64. *)
Lemma calculate_score_in_range {image : Type} (id2label : gmap Z string)
    (Image_open : string -> option image) (segment : image -> ndarray)
    (image_path : string) (debug : bool) :
  (forall (score : pyobj xfloat) (st : status),
     (calculate_score id2label Image_open segment image_path debug).2
       = Return (score, st) ->
     exists q : Q, as_float score = Fin q /\ (0 <= q <= 1)%Q)
  /\ (forall (score : pyobj float) (st : status),
     (calculate_score id2label Image_open segment image_path debug).2
       = Return (score, st) ->
     PrimFloat.leb 0 (as_float score) = true
     /\ PrimFloat.leb (as_float score) 1 = true).
Proof.
  unfold calculate_score. split; intros score st;
    destruct (Image_open image_path) as [img |].
  - destruct (score_segmentation_scoring (F:=xfloat) id2label (segment img) debug)
      as (b & w & n & r & u & ->).
    apply returned_score_in_range_exact.
  - intros [= <- _]. exists (Qred 0.5). split; [done |].
    rewrite Qred_correct. lra.
  - destruct (score_segmentation_scoring (F:=float) id2label (segment img) debug)
      as (b & w & n & r & u & ->).
    apply returned_score_in_range_binary64.
  - intros [= <- _]. by vm_compute.
Qed.

(** ** The empty predicted map *)

Lemma np_size_zero (a : ndarray) : np_size a = 0 -> ravel a = [].
Proof.
  unfold np_size. intros H. destruct (ravel a); [done | cbn in H; lia].
Qed.

Section EmptyMap.
Context {F : Type} {ops : FloatOps F}.

Lemma np_sum_eq_empty (a : ndarray) (i : Z) :
  ravel a = [] -> np_sum_eq (F:=F) a i = NpInt64 0.
Proof. intros H. unfold np_sum_eq, count_px. by rewrite H. Qed.

Lemma fold_py_add_zeros (a : ndarray) (ids : list Z) (k : bool) :
  ravel a = [] ->
  fold_left py_add (map (np_sum_eq (F:=F) a) ids) (int_obj k 0)
    = int_obj (k || nonempty ids) 0.
Proof.
  intros H. revert k. induction ids as [| i ids IH]; intros k.
  - by rewrite orb_false_r.
  - cbn [map fold_left]. rewrite np_sum_eq_empty by done.
    replace (py_add (int_obj k 0) (NpInt64 0)) with (int_obj (F:=F) true 0)
      by by destruct k.
    rewrite IH. by rewrite orb_true_r.
Qed.

(** On an empty map a group's pixel count is 0: the [int] 0 the sum starts
    from when the group has no class, a [numpy.int64] otherwise. *)
Lemma py_sum_empty_map (a : ndarray) (ids : list Z) :
  ravel a = [] ->
  py_sum (map (np_sum_eq (F:=F) a) ids) = int_obj (nonempty ids) 0.
Proof. intros H. apply (fold_py_add_zeros a ids false H). Qed.
End EmptyMap.

Lemma scoring_logic_zero_total_exact (kb kw kn kr ku : bool) :
  scoring_logic (F:=xfloat) (int_obj kb 0) (int_obj kw 0) (int_obj kn 0)
    (int_obj kr 0) (int_obj ku 0) 0
  = if kb && kw && kn && kr && ku then Return (lit 1.0, MixedUrban)
    else Raise ZeroDivisionError.
Proof. destruct kb, kw, kn, kr, ku; vm_compute; reflexivity. Qed.

Lemma scoring_logic_zero_total_binary64 (kb kw kn kr ku : bool) :
  scoring_logic (F:=float) (int_obj kb 0) (int_obj kw 0) (int_obj kn 0)
    (int_obj kr 0) (int_obj ku 0) 0
  = if kb && kw && kn && kr && ku then Return (lit 1.0, MixedUrban)
    else Raise ZeroDivisionError.
Proof. destruct kb, kw, kn, kr, ku; vm_compute; reflexivity. Qed.

(** C4, amended: the scorer does not guard against an empty predicted map.
    With a total of 0 pixels it divides by zero: when one of the five class
    groups is empty its pixel count is the built-in [int] 0 and the division
    raises ZeroDivisionError; when all five groups have a class, the counts are
    [numpy.int64] zeros, the ratios are NaN and the scorer returns score 1.0
    with status Mixed / Urban.  No InputContractViolation exists. *)
Theorem empty_map_is_not_guarded (id2label : gmap Z string) (pred_seg : ndarray)
    (debug : bool) :
  np_size pred_seg = 0 ->
  let groups := [BIKE_LANE_IDS id2label; WATER_IDS id2label; NATURE_IDS id2label;
                 ROAD_IDS id2label; UGLY_IDS id2label] in
  (Exists (fun ids => ids = []) groups ->
     (score_segmentation (F:=xfloat) id2label pred_seg debug).2
       = Raise ZeroDivisionError
     /\ (score_segmentation (F:=float) id2label pred_seg debug).2
       = Raise ZeroDivisionError)
  /\ (Forall (fun ids => ids <> []) groups ->
     (score_segmentation (F:=xfloat) id2label pred_seg debug).2
       = Return (lit 1.0, MixedUrban)
     /\ (score_segmentation (F:=float) id2label pred_seg debug).2
       = Return (lit 1.0, MixedUrban)).
Proof.
  intros H0 groups. apply np_size_zero in H0 as Hr.
  rewrite !score_segmentation_result, H0, !py_sum_empty_map by done.
  rewrite scoring_logic_zero_total_exact, scoring_logic_zero_total_binary64.
  split.
  - intros Hex.
    assert (nonempty (BIKE_LANE_IDS id2label) && nonempty (WATER_IDS id2label)
            && nonempty (NATURE_IDS id2label) && nonempty (ROAD_IDS id2label)
            && nonempty (UGLY_IDS id2label) = false) as ->; [| done].
    unfold groups in Hex. rewrite !Exists_cons, Exists_nil in Hex.
    destruct Hex as [-> | [-> | [-> | [-> | [-> | []]]]]];
      cbn; rewrite ?andb_false_r; done.
  - intros Hall. unfold groups in Hall.
    rewrite !Forall_cons in Hall. destruct Hall as (Hb & Hw & Hn & Hr' & Hu & _).
    destruct (BIKE_LANE_IDS id2label), (WATER_IDS id2label), (NATURE_IDS id2label),
      (ROAD_IDS id2label), (UGLY_IDS id2label); done.
Qed.

Lemma empty_map_is_not_guarded_witness :
  (score_segmentation (F:=xfloat) sample_id2label [] false).2
    = Return (lit 1.0, MixedUrban)
  /\ (score_segmentation (F:=float) sample_id2label [] false).2
    = Return (lit 1.0, MixedUrban).
Proof.
  apply (empty_map_is_not_guarded sample_id2label [] false).
  - reflexivity.
  - repeat constructor; by vm_compute.
Defined.

(** C4 as stated fails: with a class in every group, the empty map is scored
    1.0, Mixed / Urban, and nothing is raised. *)
Lemma empty_map_is_scored :
  (score_segmentation (F:=float) sample_id2label [] false).2
    = Return (PyFloat 1%float, MixedUrban)
  /\ ~ exists e : exn,
       (score_segmentation (F:=float) sample_id2label [] false).2 = Raise e.
Proof.
  assert (E : (score_segmentation (F:=float) sample_id2label [] false).2
              = Return (PyFloat 1%float, MixedUrban)) by (vm_compute; reflexivity).
  split; [done |]. intros (e & He). rewrite E in He. discriminate.
Qed.

(** ** The debug flag *)

(** C5: the debug flag does not change what the scorer returns: the
    (score, status) pair, or the exception, is the same with and without the
    breakdown, from the predicted map and from the image path, in every
    arithmetic. *)
Theorem debug_does_not_change_result {F : Type} {ops : FloatOps F} {image : Type}
    (id2label : gmap Z string) (Image_open : string -> option image)
    (segment : image -> ndarray) (pred_seg : ndarray) (image_path : string) :
  (score_segmentation (F:=F) id2label pred_seg true).2
    = (score_segmentation id2label pred_seg false).2
  /\ (calculate_score (F:=F) id2label Image_open segment image_path true).2
    = (calculate_score id2label Image_open segment image_path false).2.
Proof.
  split.
  - by rewrite !score_segmentation_result.
  - unfold calculate_score. destruct (Image_open image_path) as [img |]; [| done].
    by rewrite !score_segmentation_result.
Qed.

(** ** [get_id_by_name] *)

Lemma append_String (c : ascii) (s t : string) :
  String c s +:+ t = String c (s +:+ t).
Proof. reflexivity. Qed.

Lemma lower_app (s t : string) : lower (s +:+ t) = lower s +:+ lower t.
Proof.
  induction s as [| c s IH]; [done |].
  rewrite append_String. cbn [lower]. by rewrite append_String, IH.
Qed.

Lemma lower_split (s a b : string) :
  lower s = a +:+ b ->
  exists s1 s2 : string, s = s1 +:+ s2 /\ lower s1 = a /\ lower s2 = b.
Proof.
  revert s. induction a as [| c a IH]; intros s H.
  - by exists "", s.
  - destruct s as [| d s]; [done |].
    cbn [lower] in H. rewrite append_String in H. injection H as Hc H.
    destruct (IH s H) as (s1 & s2 & -> & <- & <-).
    exists (String d s1), s2. cbn [lower]. by rewrite Hc.
Qed.

Lemma startswith_spec (p s : string) :
  startswith p s = true <-> exists t : string, s = p +:+ t.
Proof.
  revert s. induction p as [| a p IH]; intros s; cbn.
  - split; [by exists s | done].
  - destruct s as [| b s]; [split; [done | by intros (t & ?)] |].
    rewrite andb_true_iff, IH, Ascii.eqb_eq. split.
    + intros (-> & t & ->). by exists t.
    + intros (t & H). rewrite append_String in H. injection H as -> ->. eauto.
Qed.

Lemma str_in_spec (sub s : string) :
  str_in sub s = true <-> exists pre post : string, s = pre +:+ sub +:+ post.
Proof.
  induction s as [| c s IH]; cbn [str_in]; rewrite orb_true_iff, startswith_spec.
  - split.
    + intros [(t & H) | ?]; [by exists "", t | done].
    + intros (pre & post & H). left. destruct pre; [by exists post | done].
  - rewrite IH. split.
    + intros [(t & H) | (pre & post & ->)]; [by exists "", t |].
      by exists (String c pre), post.
    + intros (pre & post & H). destruct pre as [| d pre].
      * left. by exists post.
      * right. rewrite append_String in H. injection H as -> ->. by exists pre, post.
Qed.

(** The test of [get_id_by_name], [key.lower() in label.lower()]. *)
Lemma str_in_lower (keyword name : string) :
  str_in (lower keyword) (lower name) = true <-> ci_substring keyword name.
Proof.
  rewrite str_in_spec. split.
  - intros (pre & post & H).
    apply lower_split in H as (s1 & s23 & -> & <- & H).
    apply lower_split in H as (s2 & s3 & -> & H & <-).
    by exists s1, s2, s3.
  - intros (pre & mid & post & -> & <-).
    exists (lower pre), (lower post). by rewrite !lower_app.
Qed.

Lemma elem_of_get_id_by_name (id2label : gmap Z string) (keyword_list : list string)
    (id : Z) :
  id ∈ get_id_by_name id2label keyword_list <->
  exists name keyword : string,
    id2label !! id = Some name /\ keyword ∈ keyword_list
    /\ ci_substring keyword name.
Proof.
  unfold get_id_by_name. rewrite elem_of_elements, elem_of_list_to_set.
  rewrite list_elem_of_bind. split.
  - intros ([id' name] & Hin & Hm). apply elem_of_map_to_list in Hm.
    apply list_elem_of_bind in Hin as (keyword & Hin & Hk).
    destruct (str_in _ _) eqn:E; [| by apply elem_of_nil in Hin].
    apply list_elem_of_singleton in Hin as ->.
    exists name, keyword. by rewrite <- str_in_lower.
  - intros (name & keyword & Hm & Hk & Hs). exists (id, name).
    split; [| by apply elem_of_map_to_list].
    apply list_elem_of_bind. exists keyword. split; [| done].
    apply str_in_lower in Hs as ->. by apply list_elem_of_singleton.
Qed.


(** ** The road ratio *)




(** In every arithmetic: with the other pixel counts and the total fixed, two
    road pixel counts that lead to the same status lead to the same score. *)
Lemma road_px_only_through_status {F : Type} {ops : FloatOps F}
    (bike_lane_px water_px nature_px ugly_px road_px1 road_px2 : pyobj F)
    (total : Z) (score1 score2 : pyobj F) (st : status) :
  scoring_logic bike_lane_px water_px nature_px road_px1 ugly_px total
    = Return (score1, st) ->
  scoring_logic bike_lane_px water_px nature_px road_px2 ugly_px total
    = Return (score2, st) ->
  score1 = score2.
Proof.
  unfold scoring_logic. intros H1 H2.
  apply bind_return in H1 as (bike_lane_ratio & Eb & H1). rewrite Eb in H2.
  apply bind_return in H1 as (water_ratio & Ew & H1). rewrite Ew in H2.
  apply bind_return in H1 as (nature_ratio & En & H1). rewrite En in H2.
  cbn [mbind result_bind] in H2.
  assert (Hsame : forall (t : status * pyobj F * pyobj F * pyobj F),
    Return t ≫= (λ '(status0, bonus, penalty, ugly_px),
      py_truediv ugly_px total ≫= λ ugly_ratio : pyobj F,
        Return
          (py_max (lit 0.0)
             (py_min (lit 1.0)
                (lit 0.5 + nature_ratio * lit 0.5 + water_ratio * lit 1.5
                 + bike_lane_ratio * lit 2.0 - ugly_ratio * lit 0.5
                 + bonus - penalty)%py), status0)) = Return (score1, st) ->
    Return t ≫= (λ '(status0, bonus, penalty, ugly_px),
      py_truediv ugly_px total ≫= λ ugly_ratio : pyobj F,
        Return
          (py_max (lit 0.0)
             (py_min (lit 1.0)
                (lit 0.5 + nature_ratio * lit 0.5 + water_ratio * lit 1.5
                 + bike_lane_ratio * lit 2.0 - ugly_ratio * lit 0.5
                 + bonus - penalty)%py), status0)) = Return (score2, st) ->
    score1 = score2) by (intros t Ht1 Ht2; congruence).
  destruct (water_ratio > lit 0.10)%py; [exact (Hsame _ H1 H2) |].
  destruct (bike_lane_ratio > lit 0.05)%py; [exact (Hsame _ H1 H2) |].
  destruct (nature_ratio > lit 0.40)%py; [exact (Hsame _ H1 H2) |].
  destruct (py_truediv road_px1 total) as [road_ratio1 |]; [| done].
  destruct (py_truediv road_px2 total) as [road_ratio2 |]; [| done].
  cbn [mbind result_bind] in H1, H2.
  destruct (road_ratio1 > lit 0.40)%py, (road_ratio2 > lit 0.40)%py;
    try exact (Hsame _ H1 H2);
    cbn [mbind result_bind] in H1, H2;
    destruct (py_truediv ugly_px total); cbn in H1, H2; congruence.
Qed.



(** ** The debug breakdown *)

Lemma wrap64_small (z : Z) : - 2 ^ 63 <= z < 2 ^ 63 -> wrap64 z = z.
Proof. intros H. unfold wrap64. rewrite Z.mod_small; lia. Qed.

Lemma insert_sorted_elem (x y : Z) (l : list Z) :
  y ∈ insert_sorted x l <-> y = x \/ y ∈ l.
Proof.
  induction l as [| z l IH]; cbn [insert_sorted].
  - rewrite list_elem_of_singleton, elem_of_nil. tauto.
  - destruct (x <? z) eqn:Hlt; [by rewrite elem_of_cons |].
    destruct (x =? z) eqn:Heq.
    + apply Z.eqb_eq in Heq as ->. rewrite elem_of_cons. tauto.
    + rewrite !elem_of_cons, IH. tauto.
Qed.

Lemma insert_sorted_sorted (x : Z) (l : list Z) :
  StronglySorted Z.lt l -> StronglySorted Z.lt (insert_sorted x l).
Proof.
  induction 1 as [| z l Hs IH Hz]; cbn [insert_sorted].
  - repeat constructor.
  - destruct (x <? z) eqn:Hlt.
    + apply Z.ltb_lt in Hlt. constructor; [by constructor |].
      constructor; [done |]. eapply Forall_impl; [done |]. cbn. lia.
    + destruct (x =? z) eqn:Heq; [by constructor |].
      apply Z.ltb_ge in Hlt. apply Z.eqb_neq in Heq.
      constructor; [done |]. apply Forall_forall. intros y Hy.
      apply insert_sorted_elem in Hy as [-> | Hy]; [lia |].
      by apply (proj1 (Forall_forall _ _) Hz).
Qed.

Lemma unique_elem (l : list Z) (x : Z) : x ∈ foldr insert_sorted [] l <-> x ∈ l.
Proof.
  induction l as [| y l IH]; [done |].
  cbn [foldr]. rewrite insert_sorted_elem, elem_of_cons, IH. tauto.
Qed.

Lemma unique_sorted (l : list Z) : StronglySorted Z.lt (foldr insert_sorted [] l).
Proof.
  induction l as [| y l IH]; [constructor |]. cbn [foldr].
  by apply insert_sorted_sorted.
Qed.



Lemma count_px_bounds (a : ndarray) (id : Z) : 0 <= count_px a id <= np_size a.
Proof.
  unfold count_px, np_size. split; [lia |].
  apply inj_le, count_occ_bound.
Qed.


Section DebugBreakdown.
Context (id2label : gmap Z string) (pred_seg : ndarray).
Hypothesis size_int64 : np_size pred_seg < 2 ^ 63.




End DebugBreakdown.



(** ** The failure path *)

(** C9: when the image cannot be opened, [calculate_score] raises nothing: it
    prints the error and returns the neutral score 0.5, which is in [0, 1],
    with the status "Error". *)
Theorem unopened_image_gives_neutral_result {F : Type} {ops : FloatOps F}
    {image : Type} (id2label : gmap Z string) (Image_open : string -> option image)
    (segment : image -> ndarray) (image_path : string) (debug : bool) :
  Image_open image_path = None ->
  calculate_score (F:=F) id2label Image_open segment image_path debug
    = ([ErrorOpeningImage], Return (lit 0.5, Error))
  /\ status_text Error = "Error"
  /\ (exists q : Q,
        as_float (lit 0.5 : pyobj xfloat) = Fin q /\ (q == 0.5)%Q /\ (0 <= q <= 1)%Q)
  /\ as_float (lit 0.5 : pyobj float) = 0.5%float.
Proof.
  intros Hopen. unfold calculate_score. rewrite Hopen.
  split; [done |]. split; [done |]. split; [| by vm_compute].
  exists (Qred 0.5). split; [done |]. rewrite Qred_correct. split; [done | lra].
Qed.

Lemma unopened_image_gives_neutral_result_witness :
  calculate_score (F:=float) (image:=unit) sample_id2label (fun _ => None)
    (fun _ => []) "missing.jpg" true
  = ([ErrorOpeningImage], Return (lit 0.5, Error)).
Proof.
  apply (unopened_image_gives_neutral_result (F:=float) (image:=unit)
           sample_id2label (fun _ => None) (fun _ => []) "missing.jpg" true).
  reflexivity.
Defined.

(** ** Monotonicity in the water ratio *)





(** * Further properties of the scorer *)

(** ** Pixel counting (lines 69-76) *)

Lemma filter_in_cons_length (l ids : list Z) (i : Z) :
  i ∉ ids ->
  length (filter (fun x => x ∈ i :: ids) l)
  = (count_occ Z.eq_dec l i + length (filter (fun x => x ∈ ids) l))%nat.
Proof.
  intros Hi. induction l as [| x l IH]; [done |].
  rewrite !filter_cons. cbn [count_occ].
  destruct (Z.eq_dec x i) as [-> | Hne].
  - rewrite decide_True by apply list_elem_of_here.
    rewrite decide_False by done. cbn [length]. lia.
  - destruct (decide (x ∈ ids)) as [Hx | Hx].
    + rewrite decide_True by by apply list_elem_of_further. cbn [length]. lia.
    + rewrite decide_False; [done |].
      intros [-> | ?]%elem_of_cons; done.
Qed.

(** Over distinct class ids, the per-class counts add up to the number of
    pixels whose class is one of them. *)
Lemma sum_count_px (a : ndarray) (ids : list Z) :
  NoDup ids ->
  foldr (fun i acc => count_px a i + acc) 0 ids = group_px a ids.
Proof.
  unfold group_px, count_px. induction 1 as [| i ids Hi Hnd IH]; cbn [foldr].
  - induction (ravel a) as [| x l IHl]; [done |].
    rewrite filter_cons, decide_False; [done | apply not_elem_of_nil].
  - rewrite IH, filter_in_cons_length by done. lia.
Qed.

Lemma group_px_bounds (a : ndarray) (ids : list Z) : 0 <= group_px a ids <= np_size a.
Proof.
  unfold group_px, np_size. split; [lia |]. apply inj_le, length_filter.
Qed.

Lemma sum_count_px_nonneg (a : ndarray) (ids : list Z) :
  0 <= foldr (fun i acc => count_px a i + acc) 0 ids.
Proof.
  induction ids as [| i ids IH]; cbn [foldr]; [done |].
  pose proof (count_px_bounds a i). lia.
Qed.

Section Aggregation.
Context {F : Type} {ops : FloatOps F}.

Lemma fold_py_add_sum (a : ndarray) (ids : list Z) (k : bool) (z0 : Z) :
  0 <= z0 ->
  z0 + foldr (fun i acc => count_px a i + acc) 0 ids < 2 ^ 63 ->
  fold_left py_add (map (np_sum_eq (F:=F) a) ids) (int_obj k z0)
  = int_obj (k || nonempty ids) (z0 + foldr (fun i acc => count_px a i + acc) 0 ids).
Proof.
  revert k z0. induction ids as [| i ids IH]; intros k z0 Hz0 Hb; cbn [foldr] in *.
  - by rewrite orb_false_r, Z.add_0_r.
  - pose proof (count_px_bounds a i) as Hc.
    pose proof (sum_count_px_nonneg a ids) as Hs.
    cbn [map fold_left nonempty]. rewrite orb_true_r.
    replace (py_add (int_obj k z0) (np_sum_eq a i))
      with (int_obj (F:=F) true (z0 + count_px a i)).
    + rewrite IH by lia. f_equal. lia.
    + unfold np_sum_eq. rewrite (wrap64_small (count_px a i)) by lia.
      destruct k; cbn; by rewrite wrap64_small by lia.
Qed.

(** A group's pixel count, as the program computes it, is the number of
    pixels whose class id is in the group. *)
Lemma py_sum_group_px (a : ndarray) (ids : list Z) :
  NoDup ids -> np_size a < 2 ^ 63 ->
  py_sum (map (np_sum_eq (F:=F) a) ids) = int_obj (nonempty ids) (group_px a ids).
Proof.
  intros Hnd Hsize. pose proof (group_px_bounds a ids) as Hg.
  rewrite <- sum_count_px in * by done.
  unfold py_sum. change (PyInt 0) with (int_obj (F:=F) false 0).
  by rewrite fold_py_add_sum by lia.
Qed.
End Aggregation.

Lemma get_id_by_name_NoDup (id2label : gmap Z string) (keyword_list : list string) :
  NoDup (get_id_by_name id2label keyword_list).
Proof. unfold get_id_by_name. apply NoDup_elements. Qed.

(** X1: for a predicted map with fewer than 2^63 pixels and the group of any
    keyword list, the pixel count the program computes, a sum of
    [numpy.int64] counts over the group's class ids, is the number of pixels
    whose class id belongs to the group: it never wraps around, it lies
    between 0 and the total, and it is a built-in [int] only when the group
    is empty. *)
Theorem group_pixel_count {F : Type} {ops : FloatOps F} (id2label : gmap Z string)
    (keyword_list : list string) (pred_seg : ndarray) :
  np_size pred_seg < 2 ^ 63 ->
  let ids := get_id_by_name id2label keyword_list in
  py_sum (map (np_sum_eq (F:=F) pred_seg) ids)
    = int_obj (nonempty ids) (group_px pred_seg ids)
  /\ 0 <= group_px pred_seg ids <= np_size pred_seg.
Proof.
  intros Hsize ids. split; [| apply group_px_bounds].
  apply py_sum_group_px; [apply get_id_by_name_NoDup | done].
Qed.

Lemma group_pixel_count_witness :
  py_sum (map (np_sum_eq (F:=xfloat) [[1; 1; 9; 1; 4]; [4; 1; 1; 1; 1]])
            (get_id_by_name sample_id2label ["water"; "building"]))
    = int_obj (nonempty (get_id_by_name sample_id2label ["water"; "building"]))
        (group_px [[1; 1; 9; 1; 4]; [4; 1; 1; 1; 1]]
           (get_id_by_name sample_id2label ["water"; "building"]))
  /\ 0 <= group_px [[1; 1; 9; 1; 4]; [4; 1; 1; 1; 1]]
            (get_id_by_name sample_id2label ["water"; "building"])
       <= np_size [[1; 1; 9; 1; 4]; [4; 1; 1; 1; 1]].
Proof.
  apply (group_pixel_count (F:=xfloat) sample_id2label ["water"; "building"]
           [[1; 1; 9; 1; 4]; [4; 1; 1; 1; 1]]).
  by vm_compute.
Defined.

(** ** The scorer on a non-empty map *)



(** On a non-empty map the scorer returns the status and the score of the
    specification's classifier and synthesizer for the ratios of the map. *)
Lemma score_segmentation_exact (id2label : gmap Z string) (pred_seg : ndarray)
    (debug : bool) :
  0 < np_size pred_seg < 2 ^ 63 ->
  exists score : pyobj xfloat,
    (score_segmentation id2label pred_seg debug).2
      = Return (score, classify_status (map_ratios id2label pred_seg))
    /\ val score (spec_score (map_ratios id2label pred_seg)).
Proof.
  intros [Hpos Hsize]. rewrite score_segmentation_result.
  unfold BIKE_LANE_IDS, WATER_IDS, NATURE_IDS, ROAD_IDS, UGLY_IDS.
  rewrite !py_sum_group_px by (apply get_id_by_name_NoDup || done).
  apply scoring_logic_exact. lia.
Qed.



(** ** Status and score *)




(** ** Pixels of no group *)

Lemma group_px_none (a : ndarray) (ids : list Z) :
  (forall x : Z, x ∈ ravel a -> x ∉ ids) -> group_px a ids = 0.
Proof.
  unfold group_px. intros H. induction (ravel a) as [| x l IH]; [done |].
  rewrite filter_cons, decide_False by (apply H, list_elem_of_here).
  apply IH. intros y Hy. by apply H, list_elem_of_further.
Qed.

(** a class id without a name is in no group *)
Lemma unknown_class_in_no_group (id2label : gmap Z string)
    (keyword_list : list string) (x : Z) :
  id2label !! x = None -> x ∉ get_id_by_name id2label keyword_list.
Proof.
  intros Hx (name & keyword & Hname & _)%elem_of_get_id_by_name. congruence.
Qed.

Lemma zero_ratios_neutral (total : Z) :
  total <> 0 ->
  classify_status (group_ratios 0 0 0 0 0 total) = MixedUrban
  /\ (spec_score (group_ratios 0 0 0 0 0 total) == 1 # 2)%Q.
Proof.
  intros Ht. unfold classify_status, spec_score, classify, group_ratios.
  cbn [water_ratio bike_lane_ratio nature_ratio road_ratio ugly_ratio].
  assert (E : (inject_Z 0 / inject_Z total == 0)%Q) by apply Qmult_0_l.
  rewrite !(Qltb_proper _ _ (Qeq_refl _) _ _ E). cbn [fst snd].
  replace (Qltb 0.10 0) with false by done.
  replace (Qltb 0.05 0) with false by done.
  replace (Qltb 0.40 0) with false by done.
  split; [done |]. unfold synthesize, raw_score.
  cbn [water_ratio bike_lane_ratio nature_ratio road_ratio ugly_ratio].
  transitivity (clamp (1 # 2) 0 1); [| done].
  apply clamp_proper; [| done..]. rewrite E. reflexivity.
Qed.

(** X4: a non-empty map in which no pixel belongs to a group, as when its
    class ids have no entry in the vocabulary, is scored as the neutral
    scene: status Mixed / Urban, score 0.5.  Such pixels still count in the
    total.  (Exact arithmetic.) *)
Theorem ungrouped_map_is_neutral (id2label : gmap Z string) (pred_seg : ndarray)
    (debug : bool) :
  0 < np_size pred_seg < 2 ^ 63 ->
  (forall x : Z, x ∈ ravel pred_seg ->
     id2label !! x = None
     \/ ((x ∉ BIKE_LANE_IDS id2label) /\ (x ∉ WATER_IDS id2label)
         /\ (x ∉ NATURE_IDS id2label) /\ (x ∉ ROAD_IDS id2label)
         /\ (x ∉ UGLY_IDS id2label))) ->
  exists score : pyobj xfloat,
    (score_segmentation id2label pred_seg debug).2 = Return (score, MixedUrban)
    /\ as_float score = Fin (1 # 2).
Proof.
  intros Hsize Hno.
  assert (Hg : forall keyword_list : list string,
             get_id_by_name id2label keyword_list
               ∈ [BIKE_LANE_IDS id2label; WATER_IDS id2label; NATURE_IDS id2label;
                  ROAD_IDS id2label; UGLY_IDS id2label] ->
             group_px pred_seg (get_id_by_name id2label keyword_list) = 0).
  { intros keyword_list Hin. apply group_px_none. intros x Hx.
    destruct (Hno x Hx) as [Hnone | (Hb & Hw & Hn & Hr & Hu)];
      [by apply unknown_class_in_no_group |].
    repeat (apply elem_of_cons in Hin as [-> | Hin]; [done |]).
    by apply elem_of_nil in Hin. }
  destruct (score_segmentation_exact id2label pred_seg debug Hsize)
    as (score & E & V).
  unfold map_ratios in E, V.
  unfold BIKE_LANE_IDS, WATER_IDS, NATURE_IDS, ROAD_IDS, UGLY_IDS in *.
  rewrite !Hg in E, V
    by (repeat first [apply list_elem_of_here | apply list_elem_of_further]).
  destruct (zero_ratios_neutral (np_size pred_seg)) as [Est Esc]; [lia |].
  rewrite Est in E. exists score. split; [done |].
  apply (val_eq _ _ _ V) in Esc. apply Esc.
Qed.

Lemma ungrouped_map_is_neutral_witness :
  exists score : pyobj xfloat,
    (score_segmentation sample_id2label [[7; 8]; [9; 7]] true).2
      = Return (score, MixedUrban)
    /\ as_float score = Fin (1 # 2).
Proof.
  apply (ungrouped_map_is_neutral sample_id2label [[7; 8]; [9; 7]] true).
  - by vm_compute.
  - intros x Hx. left.
    repeat (apply elem_of_cons in Hx as [-> | Hx]; [by vm_compute |]).
    by apply elem_of_nil in Hx.
Defined.

(** ** The position of the pixels *)

Lemma sorted_lt_NoDup (l : list Z) : StronglySorted Z.lt l -> NoDup l.
Proof.
  induction 1 as [| x l Hs IH Hx]; constructor; [| done].
  intros Hin. pose proof (proj1 (Forall_forall _ _) Hx x Hin). lia.
Qed.

Lemma unique_perm (l l' : list Z) :
  l ≡ₚ l' -> foldr insert_sorted [] l = foldr insert_sorted [] l'.
Proof.
  intros Hp.
  apply (StronglySorted_unique_strong Z.lt); [intros; lia | apply unique_sorted.. |].
  apply NoDup_Permutation; [apply sorted_lt_NoDup, unique_sorted.. |].
  intros x. by rewrite !unique_elem, Hp.
Qed.

Lemma count_px_perm (a a' : ndarray) (i : Z) :
  ravel a ≡ₚ ravel a' -> count_px a i = count_px a' i.
Proof.
  intros Hp. unfold count_px. f_equal.
  by apply (proj1 (Permutation_count_occ Z.eq_dec _ _)).
Qed.

(** X5: the scorer looks at how many pixels each class has, not at where they
    are: two predicted maps with the same pixels in any arrangement (a
    mirrored, transposed or reshaped map) get the same score, the same status
    and the same debug breakdown, in every arithmetic. *)
Theorem score_ignores_pixel_positions {F : Type} {ops : FloatOps F}
    (id2label : gmap Z string) (pred_seg pred_seg' : ndarray) (debug : bool) :
  ravel pred_seg ≡ₚ ravel pred_seg' ->
  score_segmentation (F:=F) id2label pred_seg debug
  = score_segmentation id2label pred_seg' debug.
Proof.
  intros Hp.
  assert (Esize : np_size pred_seg = np_size pred_seg')
    by (unfold np_size; by rewrite Hp).
  assert (Esum : forall ids : list Z,
             map (np_sum_eq (F:=F) pred_seg) ids = map (np_sum_eq pred_seg') ids).
  { intros ids. apply map_ext. intros i. unfold np_sum_eq.
    by rewrite (count_px_perm _ _ i Hp). }
  assert (Eunique : np_unique pred_seg = np_unique pred_seg').
  { unfold np_unique. rewrite (unique_perm _ _ Hp). f_equal.
    apply map_ext. intros i. by rewrite (count_px_perm _ _ i Hp). }
  unfold score_segmentation, debug_breakdown.
  by rewrite Esize, !Esum, Eunique.
Qed.

Lemma score_ignores_pixel_positions_witness :
  score_segmentation (F:=float) sample_id2label [[1; 4; 2]; [9; 1; 1]] true
  = score_segmentation sample_id2label [[1; 9]; [4; 1]; [2; 1]] true.
Proof.
  apply (score_ignores_pixel_positions (F:=float) sample_id2label
           [[1; 4; 2]; [9; 1; 1]] [[1; 9]; [4; 1]; [2; 1]] true).
  by apply (bool_decide_unpack _); vm_compute.
Defined.

(** ** When the scorer raises *)

Lemma all_nonempty_iff (l1 l2 l3 l4 l5 : list Z) :
  nonempty l1 && nonempty l2 && nonempty l3 && nonempty l4 && nonempty l5 = false
  <-> Exists (fun ids => ids = []) [l1; l2; l3; l4; l5].
Proof.
  rewrite !Exists_cons, Exists_nil.
  destruct l1, l2, l3, l4, l5; cbn; split; intros H; try done; try tauto;
    destruct H as [H | [H | [H | [H | [H | []]]]]]; discriminate.
Qed.

Lemma empty_map_result_exact (id2label : gmap Z string) (pred_seg : ndarray)
    (debug : bool) :
  np_size pred_seg = 0 ->
  (score_segmentation (F:=xfloat) id2label pred_seg debug).2
  = if nonempty (BIKE_LANE_IDS id2label) && nonempty (WATER_IDS id2label)
       && nonempty (NATURE_IDS id2label) && nonempty (ROAD_IDS id2label)
       && nonempty (UGLY_IDS id2label)
    then Return (lit 1.0, MixedUrban) else Raise ZeroDivisionError.
Proof.
  intros H0. apply np_size_zero in H0 as Hr.
  by rewrite score_segmentation_result, H0, !py_sum_empty_map,
    scoring_logic_zero_total_exact.
Qed.

Lemma empty_map_result_binary64 (id2label : gmap Z string) (pred_seg : ndarray)
    (debug : bool) :
  np_size pred_seg = 0 ->
  (score_segmentation (F:=float) id2label pred_seg debug).2
  = if nonempty (BIKE_LANE_IDS id2label) && nonempty (WATER_IDS id2label)
       && nonempty (NATURE_IDS id2label) && nonempty (ROAD_IDS id2label)
       && nonempty (UGLY_IDS id2label)
    then Return (lit 1.0, MixedUrban) else Raise ZeroDivisionError.
Proof.
  intros H0. apply np_size_zero in H0 as Hr.
  by rewrite score_segmentation_result, H0, !py_sum_empty_map,
    scoring_logic_zero_total_binary64.
Qed.

Lemma score_segmentation_returns {F : Type} {ops : FloatOps F}
    (id2label : gmap Z string) (pred_seg : ndarray) (debug : bool) :
  np_size pred_seg <> 0 ->
  exists (score : pyobj F) (st : status),
    (score_segmentation id2label pred_seg debug).2 = Return (score, st).
Proof.
  intros Hsize. rewrite score_segmentation_result.
  by apply scoring_logic_returns.
Qed.

(** X6: the scorer raises in one situation only.  From the predicted map on,
    it raises an exception exactly when the map is empty and one of the five
    class groups is empty; on every other input, a non-empty map in
    particular, it returns a score and a status.  This holds in exact
    arithmetic and on binary64. *)
Theorem scorer_raises_iff (id2label : gmap Z string) (pred_seg : ndarray)
    (debug : bool) :
  let groups := [BIKE_LANE_IDS id2label; WATER_IDS id2label; NATURE_IDS id2label;
                 ROAD_IDS id2label; UGLY_IDS id2label] in
  ((exists e : exn,
      (score_segmentation (F:=xfloat) id2label pred_seg debug).2 = Raise e)
   <-> np_size pred_seg = 0 /\ Exists (fun ids => ids = []) groups)
  /\ ((exists e : exn,
         (score_segmentation (F:=float) id2label pred_seg debug).2 = Raise e)
      <-> np_size pred_seg = 0 /\ Exists (fun ids => ids = []) groups)
  /\ (np_size pred_seg <> 0 ->
      (exists (score : pyobj xfloat) (st : status),
         (score_segmentation id2label pred_seg debug).2 = Return (score, st))
      /\ (exists (score : pyobj float) (st : status),
         (score_segmentation id2label pred_seg debug).2 = Return (score, st))).
Proof.
  intros groups. unfold groups. rewrite <- all_nonempty_iff.
  split; [| split].
  - split.
    + intros (e & He). destruct (decide (np_size pred_seg = 0)) as [H0 | H0].
      * split; [done |]. rewrite empty_map_result_exact in He by done.
        by destruct (_ && _).
      * destruct (score_segmentation_returns (F:=xfloat) id2label pred_seg debug H0)
          as (score & st & E). congruence.
    + intros [H0 Hex]. rewrite empty_map_result_exact, Hex by done. by eexists.
  - split.
    + intros (e & He). destruct (decide (np_size pred_seg = 0)) as [H0 | H0].
      * split; [done |]. rewrite empty_map_result_binary64 in He by done.
        by destruct (_ && _).
      * destruct (score_segmentation_returns (F:=float) id2label pred_seg debug H0)
          as (score & st & E). congruence.
    + intros [H0 Hex]. rewrite empty_map_result_binary64, Hex by done. by eexists.
  - intros H0. split; by apply score_segmentation_returns.
Qed.

(** ** Monotonicity in every ratio *)




(** ** The size of the breakdown *)





(** * Further properties of [get_id_by_name] *)

(** The result is determined by its elements: it is the list of a set. *)
Lemma get_id_by_name_ext (id2label id2label' : gmap Z string)
    (keyword_list keyword_list' : list string) :
  (forall id : Z,
     id ∈ get_id_by_name id2label keyword_list
     <-> id ∈ get_id_by_name id2label' keyword_list') ->
  get_id_by_name id2label keyword_list = get_id_by_name id2label' keyword_list'.
Proof.
  intros H. unfold get_id_by_name in *. f_equal. apply set_eq. intros id.
  by rewrite <- !elem_of_elements.
Qed.

(** X9: groups compose.  The ids found for two keyword lists together are
    the ids found for one or the other: a group is the union of the groups
    of its keywords. *)
Theorem get_id_by_name_union (id2label : gmap Z string)
    (keywords1 keywords2 : list string) (id : Z) :
  id ∈ get_id_by_name id2label (keywords1 ++ keywords2)
  <-> id ∈ get_id_by_name id2label keywords1
      \/ id ∈ get_id_by_name id2label keywords2.
Proof.
  rewrite !elem_of_get_id_by_name. split.
  - intros (name & keyword & Hname & [Hk | Hk]%elem_of_app & Hs);
      [left | right]; by exists name, keyword.
  - intros [(name & keyword & Hname & Hk & Hs) | (name & keyword & Hname & Hk & Hs)];
      exists name, keyword; (split; [done |]; split; [| done]);
      apply elem_of_app; [by left | by right].
Qed.

Lemma ci_substring_lower (keyword keyword' name name' : string) :
  lower keyword = lower keyword' -> lower name = lower name' ->
  ci_substring keyword name -> ci_substring keyword' name'.
Proof.
  intros Hk Hn. rewrite <- !str_in_lower. by rewrite Hk, Hn.
Qed.

(** X10: the match ignores case on both sides.  Two keyword lists that are
    equal once lowered find the same ids, and so do two vocabularies whose
    names are equal once lowered. *)
Theorem get_id_by_name_ignores_case (id2label id2label' : gmap Z string)
    (keyword_list keyword_list' : list string) :
  lower <$> keyword_list = lower <$> keyword_list' ->
  lower <$> id2label = lower <$> id2label' ->
  get_id_by_name id2label keyword_list = get_id_by_name id2label' keyword_list'.
Proof.
  intros Hk Hv.
  assert (Hone : forall (v v' : gmap Z string) (ks ks' : list string) (id : Z),
             lower <$> ks = lower <$> ks' -> lower <$> v = lower <$> v' ->
             id ∈ get_id_by_name v ks -> id ∈ get_id_by_name v' ks').
  { intros v v' ks ks' id Hks Hvs.
    rewrite !elem_of_get_id_by_name. intros (name & keyword & Hname & Hin & Hs).
    assert (Hl : (lower <$> v') !! id = Some (lower name))
      by by rewrite <- Hvs, lookup_fmap, Hname.
    rewrite lookup_fmap in Hl.
    destruct (v' !! id) as [name' |] eqn:Hname'; [| done].
    injection Hl as Hl.
    assert (Hl' : lower keyword ∈ lower <$> ks')
      by (rewrite <- Hks; by apply list_elem_of_fmap_2).
    apply list_elem_of_fmap in Hl' as (keyword' & Hkw & Hin').
    exists name', keyword'. split; [done |]. split; [done |].
    by apply (ci_substring_lower keyword keyword' name name'). }
  apply get_id_by_name_ext. intros id. split; by apply Hone.
Qed.

Lemma get_id_by_name_ignores_case_witness :
  get_id_by_name sample_id2label ["WATER"; "Bike lane"]
  = get_id_by_name
      (list_to_map [(0, "BIKE LANE"); (1, "water"); (2, "vegetation");
                    (3, "ROAD"); (4, "building")])
      ["water"; "BIKE LANE"].
Proof.
  apply (get_id_by_name_ignores_case sample_id2label
           (list_to_map [(0, "BIKE LANE"); (1, "water"); (2, "vegetation");
                         (3, "ROAD"); (4, "building")])
           ["WATER"; "Bike lane"] ["water"; "BIKE LANE"]);
    by vm_compute.
Defined.

(** X11: edge cases of the search.  No keyword, or an empty vocabulary, finds
    nothing; the empty keyword finds every class of the vocabulary; and an id
    that is found is always a key of the vocabulary. *)
Theorem get_id_by_name_edge_cases (id2label : gmap Z string)
    (keyword_list : list string) :
  get_id_by_name id2label [] = []
  /\ get_id_by_name ∅ keyword_list = []
  /\ ("" ∈ keyword_list ->
      forall id : Z,
        id ∈ get_id_by_name id2label keyword_list <-> is_Some (id2label !! id))
  /\ (forall id : Z,
        id ∈ get_id_by_name id2label keyword_list -> is_Some (id2label !! id)).
Proof.
  assert (Hnil : forall (v : gmap Z string) (ks : list string),
             (forall id : Z, id ∉ get_id_by_name v ks) -> get_id_by_name v ks = []).
  { intros v ks H. destruct (get_id_by_name v ks) as [| id ids] eqn:E; [done |].
    destruct (H id). apply list_elem_of_here. }
  split; [| split; [| split]].
  - apply Hnil. intros id (name & keyword & _ & Hin & _)%elem_of_get_id_by_name.
    by apply elem_of_nil in Hin.
  - apply Hnil. intros id (name & keyword & Hname & _)%elem_of_get_id_by_name.
    by rewrite lookup_empty in Hname.
  - intros Hin id. rewrite elem_of_get_id_by_name. split.
    + intros (name & keyword & Hname & _). by exists name.
    + intros [name Hname]. exists name, "". split; [done |]. split; [done |].
      by exists "", "", name.
  - intros id (name & keyword & Hname & _)%elem_of_get_id_by_name. by exists name.
Qed.

(** * Properties of [request.py] *)

Lemma scoring_logic_status {F : Type} {ops : FloatOps F}
    (b w n r u : pyobj F) (total : Z) (score : pyobj F) (st : status) :
  scoring_logic b w n r u total = Return (score, st) -> st ∈ rule_statuses.
Proof.
  unfold scoring_logic, rule_statuses.
  destruct (py_truediv b total) as [rb | e]; [| done].
  destruct (py_truediv w total) as [rw | e]; [| done].
  destruct (py_truediv n total) as [rn | e]; [| done].
  cbn.
  destruct (rw > lit 0.10)%py;
    [| destruct (rb > lit 0.05)%py;
       [| destruct (rn > lit 0.40)%py;
          [| destruct (py_truediv r total) as [rr | e]; [| done]; cbn;
             destruct (rr > lit 0.40)%py]]];
    cbn; (destruct (py_truediv _ total) as [ru | e]; [| done]);
    cbn; intros [= _ <-]; rewrite !elem_of_cons; tauto.
Qed.

Section RequestProperties.
Context {F : Type} {ops : FloatOps F}.
Context (search : F -> F -> option json).

Lemma get_image_at_coordinate_url (lat lon : F) :
  (get_image_at_coordinate search lat lon).2
  = default JNull (first_thumbnail (search lat lon)).
Proof.
  unfold get_image_at_coordinate, first_thumbnail.
  destruct (search lat lon) as [[| b | z | x | s | l | d] |]; cbn; try done.
  - by destruct (str_in _ _).
  - by destruct (existsb _ _).
  - destruct (d !! "data") as [v |] eqn:E; cbn.
    + destruct v as [| b | z | x | s | [| [| b | z | x | s | l' | e] l] | d'];
        cbn; try done.
      * by destruct s.
      * by destruct (e !! "thumb_1024_url").
      * by destruct (size d').
    + done.
Qed.

Context {image file : Type}.
Context (id2label : gmap Z string) (segment : image -> ndarray).
Context (fetch_image : json -> option image).
Context (save_jpeg : image -> option file) (open_file : file -> option image).

Lemma download_and_score_unfold (fs : gmap string file) (lat lon : F) :
  download_and_score search id2label segment fetch_image save_jpeg open_file
    fs lat lon
  = let out := (get_image_at_coordinate search lat lon).1 in
    let image_url := default JNull (first_thumbnail (search lat lon)) in
    if truthy image_url then
      match fetch_image image_url with
      | None => (out ++ [FoundImage lat lon], Raised DownloadFailed)
      | Some img =>
          match save_jpeg img with
          | None => (out ++ [FoundImage lat lon], Raised SaveFailed)
          | Some saved =>
              let r := calculate_score id2label (fun _ => open_file saved) segment
                         "temp_scan.jpg" true in
              ((out ++ [FoundImage lat lon]) ++ (ScorerLine <$> r.1),
               match r.2 with
               | Return (score, st) => Returned (Some score, StatusOf st)
               | Raise e => Raised (ScorerRaised e)
               end)
          end
      end
    else (out ++ [NoStreetViewData lat lon], Returned (None, NoData)).
Proof.
  unfold download_and_score. rewrite <- get_image_at_coordinate_url.
  destruct (get_image_at_coordinate search lat lon) as [out url]. cbn.
  destruct (truthy url); [| done].
  destruct (fetch_image url) as [img |]; [| done].
  destruct (save_jpeg img) as [saved |]; [| done].
  unfold calculate_score. rewrite lookup_insert_eq. cbn.
  destruct (open_file saved) as [img' |]; [| done].
  by destruct (score_segmentation id2label (segment img') true) as [lines [[score st] | e]].
Qed.

(** X12: what a search returns.  [get_image_at_coordinate] returns the
    thumbnail URL of the first image of the answer when the answer has that
    shape, and [None] in every other case, a failed request or a malformed
    answer included, so that no exception leaves it.  It prints at most one
    line, the API error: nothing when a thumbnail was found, and the error
    when the request itself failed. *)
Theorem get_image_at_coordinate_spec (lat lon : F) :
  (get_image_at_coordinate search lat lon).2
    = default JNull (first_thumbnail (search lat lon))
  /\ ((get_image_at_coordinate search lat lon).1 = []
      \/ exists e : lookup_exn,
           (get_image_at_coordinate search lat lon).1 = [ApiError e])
  /\ (is_Some (first_thumbnail (search lat lon)) ->
      (get_image_at_coordinate search lat lon).1 = [])
  /\ (search lat lon = None ->
      (get_image_at_coordinate search lat lon).1 = [ApiError RequestFailed]).
Proof.
  split; [apply get_image_at_coordinate_url |].
  split; [| split].
  - unfold get_image_at_coordinate. destruct (_ ≫= _); [by left | right; by eexists].
  - unfold get_image_at_coordinate, first_thumbnail.
    destruct (search lat lon) as [[| b | z | x | s | l | d] |]; cbn;
      try by intros [].
    destruct (d !! "data") as [[| b | z | x | s | [| [| b | z | x | s | l' | e] l] | d'] |];
      cbn; try by intros [].
    destruct (e !! "thumb_1024_url"); by intros [].
  - unfold get_image_at_coordinate. by intros ->.
Qed.

End RequestProperties.

(** X14: what [download_and_score] returns.  When it returns, it is either
    [(None, "No Data")], exactly when the search gave no URL or one that
    counts as false, or a score of [0.0, 1.0] on binary64 with the status of
    a scoring rule, or 0.5 with "Error" when the saved file could not be opened
    again. *)
Theorem download_and_score_postcondition {image file : Type}
    (search : float -> float -> option json) (id2label : gmap Z string)
    (segment : image -> ndarray) (fetch_image : json -> option image)
    (save_jpeg : image -> option file) (open_file : file -> option image)
    (fs : gmap string file) (lat lon : float)
    (out : list (request_line float)) (score : option (pyobj float))
    (ctx : context) :
  download_and_score search id2label segment fetch_image save_jpeg open_file
    fs lat lon = (out, Returned (score, ctx)) ->
  let image_url := default JNull (first_thumbnail (search lat lon)) in
  (truthy image_url = false /\ score = None /\ ctx = NoData)
  \/ (truthy image_url = true
      /\ exists (s : pyobj float) (st : status),
           score = Some s /\ ctx = StatusOf st
           /\ (st ∈ rule_statuses \/ st = Error /\ s = lit 0.5)
           /\ PrimFloat.leb 0 (as_float s) = true
           /\ PrimFloat.leb (as_float s) 1 = true).
Proof.
  rewrite download_and_score_unfold. cbn zeta.
  destruct (truthy _); [| intros [= _ <- <-]; by left].
  destruct (fetch_image _) as [img |]; [| done].
  destruct (save_jpeg img) as [saved |]; [| done].
  destruct (calculate_score _ _ _ _ _) as [lines [[s st] | e]] eqn:E; [| done].
  cbn. intros [= _ <- <-]. right. split; [done |]. exists s, st.
  split; [done |]. split; [done |].
  assert (E2 : (calculate_score (F:=float) id2label (fun _ => open_file saved)
                  segment "temp_scan.jpg" true).2 = Return (s, st))
    by by rewrite E.
  split.
  - unfold calculate_score in E. destruct (open_file saved) as [img' |].
    + left. destruct (score_segmentation_scoring (F:=float) id2label (segment img') true)
        as (b & w & n & r & u & H).
      rewrite E in H. cbn in H. symmetry in H. by apply scoring_logic_status in H.
    + right. by injection E as _ <- <-.
  - by apply (proj2 (calculate_score_in_range id2label (fun _ => open_file saved)
                       segment "temp_scan.jpg" true) s st).
Qed.

Lemma download_and_score_postcondition_witness :
  truthy (default JNull (first_thumbnail sample_answer)) = false
  /\ Some (PyFloat 1%float) = None /\ StatusOf Waterfront = NoData
  \/ truthy (default JNull (first_thumbnail sample_answer)) = true
     /\ exists (s : pyobj float) (st : status),
          Some (PyFloat 1%float) = Some s /\ StatusOf Waterfront = StatusOf st
          /\ (st ∈ rule_statuses \/ st = Error /\ s = lit 0.5)
          /\ PrimFloat.leb 0 (as_float s) = true
          /\ PrimFloat.leb (as_float s) 1 = true.
Proof.
  apply (download_and_score_postcondition (image:=ndarray) (file:=ndarray)
           (fun _ _ => sample_answer) sample_id2label (fun img => img)
           (fun _ => Some [[1; 1]; [2; 4]]) Some Some ∅
           45.5%float (-73.5)%float
           [FoundImage 45.5%float (-73.5)%float; ScorerLine BreakdownHeader;
            ScorerLine (BreakdownEntry "Water" (NpFloat64 0.5%float));
            ScorerLine (BreakdownEntry "Vegetation" (NpFloat64 0.25%float));
            ScorerLine (BreakdownEntry "Building" (NpFloat64 0.25%float));
            ScorerLine BreakdownFooter]
           (Some (PyFloat 1%float)) (StatusOf Waterfront)).
  vm_compute. reflexivity.
Defined.

